(** * Loss detection core of the QUIC endpoint

    A shallow embedding of [iocore/net/quic/QUICLossDetector.cc] and the
    properties its specification states about it.

    Conventions of the embedding.
    - [QUICPacketNumber] and the loop counters are [uint64_t]: a [Z] in
      [0, 2^64) with the wrap-around of [x--] written out ([wrap64]).
    - The outstanding counters are [std::atomic<uint32_t>] and the three
      back-off counts are [uint32_t]: [++] and [--] wrap modulo 2^32
      ([wrap32]).
    - [ink_hrtime] is a signed 64-bit count of nanoseconds.  Signed
      overflow is undefined in C++, so timestamps and durations are plain
      [Z] and every statement is about executions that stay in range.
    - [Thread::get_hrtime()] is read several times inside one operation; an
      operation of the model receives one clock reading [now].
    - The mutexes only serialise the operations; an operation of the model
      is one critical section.
    - Calls on the transmitter and on the congestion controller are returned
      as a list of [Effect]s next to the new state.
    - The class declaration (QUICLossDetector.h) is not among the sources:
      member types are read off their uses in the .cc file, member constants
      are taken from the specification. *)

From Stdlib Require Import ZArith List Bool Lia QArith.
Import ListNotations.
Open Scope Z_scope.

(** ** Machine integers *)

Definition UINT32_MAX : Z := 4294967295.

Definition wrap32 (z : Z) : Z := z mod 2 ^ 32.
Definition wrap64 (z : Z) : Z := z mod 2 ^ 64.

(** Conversion of a [double] to an integer type truncates toward zero. *)
Definition Qtrunc (q : Q) : Z := Z.quot (Qnum q) (Z.pos (Qden q)).

(** A [double] that is either a rational or the C macro [INFINITY].  The
    finite values the detector uses (1/8, 1.5) are dyadic, so products with
    an [ink_hrtime] below 2^50 are exact in binary64 and the rational model
    agrees with the machine. *)
Inductive Double : Type :=
| Finite (q : Q)
| INFINITY.

Definition Double_ne_INFINITY (d : Double) : bool :=
  match d with
  | Finite _ => true
  | INFINITY => false
  end.

(** [delay_until_lost != INFINITY] compares a [uint32_t] with a [float]:
    the integer is converted to [float], and no [uint32_t] converts to an
    infinity, so the comparison is true of every value. *)
Definition uint32_ne_INFINITY (d : Z) : bool := true.

(** Modelled from the spec: the macro [HRTIME_MSECONDS] of the event system
    (ts/ink_hrtime.h is not part of the sources at hand) converts
    milliseconds to the nanoseconds of [ink_hrtime]. *)
Definition HRTIME_MSECONDS (ms : Z) : Z := ms * 1000000.

(** ** Packets and ACK frames (the accessors the detector calls) *)

(** Modelled from the spec: the enumerators of [QUICPacketType] the detector
    distinguishes; [OTHER] stands for every remaining packet type. *)
Inductive QUICPacketType : Type :=
| INITIAL
| HANDSHAKE
| SERVER_STATELESS_RETRY
| OTHER.

Module QUICPacket.
Record t : Type := mk {
  connection_id : Z;
  type : QUICPacketType;
  packet_number : Z;
  is_retransmittable : bool;
  size : Z
}.
End QUICPacket.

Module QUICAckFrame.
Record AckBlock : Type := mkBlock {
  gap : Z;
  length : Z
}.
Record t : Type := mk {
  largest_acknowledged : Z;
  ack_delay : Z;
  first_ack_block_length : Z;
  ack_block_section : list AckBlock
}.
End QUICAckFrame.

(** ** The sent-packet registry *)

Record PacketInfo : Type := mkPacketInfo {
  packet_number : Z;
  time : Z;
  retransmittable : bool;
  handshake : bool;
  bytes : Z;
  packet : QUICPacket.t
}.

(** [std::map<QUICPacketNumber, std::unique_ptr<PacketInfo>>]: the entries
    in ascending key order, at most one per key. *)
Definition SentPackets : Type := list (Z * PacketInfo).

Fixpoint map_wf_from (lo : Z) (m : SentPackets) : bool :=
  match m with
  | [] => true
  | (k, _) :: m' => (lo <? k) && map_wf_from k m'
  end.

Definition map_wf (m : SentPackets) : bool :=
  match m with
  | [] => true
  | (k, _) :: m' => map_wf_from k m'
  end.

Fixpoint map_find (k : Z) (m : SentPackets) : option PacketInfo :=
  match m with
  | [] => None
  | (k', v) :: m' => if k =? k' then Some v else map_find k m'
  end.

(** [std::map::insert] keeps the entry already stored under the key. *)
Fixpoint map_insert (k : Z) (v : PacketInfo) (m : SentPackets) : SentPackets :=
  match m with
  | [] => [(k, v)]
  | (k', v') :: m' =>
      if k <? k' then (k, v) :: m
      else if k =? k' then m
      else (k', v') :: map_insert k v m'
  end.

Fixpoint map_erase (k : Z) (m : SentPackets) : SentPackets :=
  match m with
  | [] => []
  | (k', v) :: m' =>
      if k =? k' then map_erase k m' else (k', v) :: map_erase k m'
  end.

(** [std::set<QUICPacketNumber>]: ascending, without duplicates. *)
Definition PacketSet : Type := list Z.

Fixpoint set_insert (x : Z) (s : PacketSet) : PacketSet :=
  match s with
  | [] => [x]
  | y :: s' =>
      if x <? y then x :: s
      else if x =? y then s
      else y :: set_insert x s'
  end.

(** ** Constants of interest *)

(** Modelled from the spec: the member constants declared in
    QUICLossDetector.h, which is not part of the sources at hand. *)
Definition _MAX_TLPS : Z := 2.
Definition _REORDERING_THRESHOLD : Z := 3.
Definition _TIME_REORDERING_FRACTION : Double := Finite (1 # 8).
Definition _MIN_TLP_TIMEOUT : Z := HRTIME_MSECONDS 10.
Definition _MIN_RTO_TIMEOUT : Z := HRTIME_MSECONDS 200.
Definition _DELAYED_ACK_TIMEOUT : Z := HRTIME_MSECONDS 25.
Definition _DEFAULT_INITIAL_RTT : Z := HRTIME_MSECONDS 100.

(** ** Detector state *)

Record State : Type := mkState {
  _connection_id : Z;
  _reordering_threshold : Z;
  _time_reordering_fraction : Double;
  _loss_detection_alarm : bool;
  _handshake_count : Z;
  _tlp_count : Z;
  _rto_count : Z;
  _largest_sent_before_rto : Z;
  _largest_sent_packet : Z;
  _largest_acked_packet : Z;
  _time_of_last_sent_packet : Z;
  _latest_rtt : Z;
  _smoothed_rtt : Z;
  _rttvar : Z;
  _loss_time : Z;
  _sent_packets : SentPackets;
  _handshake_outstanding : Z;
  _retransmittable_outstanding : Z;
  _loss_detection_alarm_at : Z
}.

(** Field updates. [_loss_detection_alarm] records whether the recurring
    event handle is non-null. *)

Definition with_connection_id (v : Z) (s : State) : State :=
  mkState
    v (_reordering_threshold s) (_time_reordering_fraction s)
    (_loss_detection_alarm s) (_handshake_count s) (_tlp_count s)
    (_rto_count s) (_largest_sent_before_rto s) (_largest_sent_packet s)
    (_largest_acked_packet s) (_time_of_last_sent_packet s) (_latest_rtt s)
    (_smoothed_rtt s) (_rttvar s) (_loss_time s) (_sent_packets s)
    (_handshake_outstanding s) (_retransmittable_outstanding s)
    (_loss_detection_alarm_at s).

Definition with_loss_detection_alarm (v : bool) (s : State) : State :=
  mkState
    (_connection_id s) (_reordering_threshold s) (_time_reordering_fraction s)
    v (_handshake_count s) (_tlp_count s) (_rto_count s)
    (_largest_sent_before_rto s) (_largest_sent_packet s)
    (_largest_acked_packet s) (_time_of_last_sent_packet s) (_latest_rtt s)
    (_smoothed_rtt s) (_rttvar s) (_loss_time s) (_sent_packets s)
    (_handshake_outstanding s) (_retransmittable_outstanding s)
    (_loss_detection_alarm_at s).

Definition with_handshake_count (v : Z) (s : State) : State :=
  mkState
    (_connection_id s) (_reordering_threshold s) (_time_reordering_fraction s)
    (_loss_detection_alarm s) v (_tlp_count s) (_rto_count s)
    (_largest_sent_before_rto s) (_largest_sent_packet s)
    (_largest_acked_packet s) (_time_of_last_sent_packet s) (_latest_rtt s)
    (_smoothed_rtt s) (_rttvar s) (_loss_time s) (_sent_packets s)
    (_handshake_outstanding s) (_retransmittable_outstanding s)
    (_loss_detection_alarm_at s).

Definition with_tlp_count (v : Z) (s : State) : State :=
  mkState
    (_connection_id s) (_reordering_threshold s) (_time_reordering_fraction s)
    (_loss_detection_alarm s) (_handshake_count s) v (_rto_count s)
    (_largest_sent_before_rto s) (_largest_sent_packet s)
    (_largest_acked_packet s) (_time_of_last_sent_packet s) (_latest_rtt s)
    (_smoothed_rtt s) (_rttvar s) (_loss_time s) (_sent_packets s)
    (_handshake_outstanding s) (_retransmittable_outstanding s)
    (_loss_detection_alarm_at s).

Definition with_rto_count (v : Z) (s : State) : State :=
  mkState
    (_connection_id s) (_reordering_threshold s) (_time_reordering_fraction s)
    (_loss_detection_alarm s) (_handshake_count s) (_tlp_count s) v
    (_largest_sent_before_rto s) (_largest_sent_packet s)
    (_largest_acked_packet s) (_time_of_last_sent_packet s) (_latest_rtt s)
    (_smoothed_rtt s) (_rttvar s) (_loss_time s) (_sent_packets s)
    (_handshake_outstanding s) (_retransmittable_outstanding s)
    (_loss_detection_alarm_at s).

Definition with_largest_sent_before_rto (v : Z) (s : State) : State :=
  mkState
    (_connection_id s) (_reordering_threshold s) (_time_reordering_fraction s)
    (_loss_detection_alarm s) (_handshake_count s) (_tlp_count s)
    (_rto_count s) v (_largest_sent_packet s) (_largest_acked_packet s)
    (_time_of_last_sent_packet s) (_latest_rtt s) (_smoothed_rtt s)
    (_rttvar s) (_loss_time s) (_sent_packets s) (_handshake_outstanding s)
    (_retransmittable_outstanding s) (_loss_detection_alarm_at s).

Definition with_largest_sent_packet (v : Z) (s : State) : State :=
  mkState
    (_connection_id s) (_reordering_threshold s) (_time_reordering_fraction s)
    (_loss_detection_alarm s) (_handshake_count s) (_tlp_count s)
    (_rto_count s) (_largest_sent_before_rto s) v (_largest_acked_packet s)
    (_time_of_last_sent_packet s) (_latest_rtt s) (_smoothed_rtt s)
    (_rttvar s) (_loss_time s) (_sent_packets s) (_handshake_outstanding s)
    (_retransmittable_outstanding s) (_loss_detection_alarm_at s).

Definition with_largest_acked_packet (v : Z) (s : State) : State :=
  mkState
    (_connection_id s) (_reordering_threshold s) (_time_reordering_fraction s)
    (_loss_detection_alarm s) (_handshake_count s) (_tlp_count s)
    (_rto_count s) (_largest_sent_before_rto s) (_largest_sent_packet s) v
    (_time_of_last_sent_packet s) (_latest_rtt s) (_smoothed_rtt s)
    (_rttvar s) (_loss_time s) (_sent_packets s) (_handshake_outstanding s)
    (_retransmittable_outstanding s) (_loss_detection_alarm_at s).

Definition with_time_of_last_sent_packet (v : Z) (s : State) : State :=
  mkState
    (_connection_id s) (_reordering_threshold s) (_time_reordering_fraction s)
    (_loss_detection_alarm s) (_handshake_count s) (_tlp_count s)
    (_rto_count s) (_largest_sent_before_rto s) (_largest_sent_packet s)
    (_largest_acked_packet s) v (_latest_rtt s) (_smoothed_rtt s) (_rttvar s)
    (_loss_time s) (_sent_packets s) (_handshake_outstanding s)
    (_retransmittable_outstanding s) (_loss_detection_alarm_at s).

Definition with_latest_rtt (v : Z) (s : State) : State :=
  mkState
    (_connection_id s) (_reordering_threshold s) (_time_reordering_fraction s)
    (_loss_detection_alarm s) (_handshake_count s) (_tlp_count s)
    (_rto_count s) (_largest_sent_before_rto s) (_largest_sent_packet s)
    (_largest_acked_packet s) (_time_of_last_sent_packet s) v
    (_smoothed_rtt s) (_rttvar s) (_loss_time s) (_sent_packets s)
    (_handshake_outstanding s) (_retransmittable_outstanding s)
    (_loss_detection_alarm_at s).

Definition with_smoothed_rtt (v : Z) (s : State) : State :=
  mkState
    (_connection_id s) (_reordering_threshold s) (_time_reordering_fraction s)
    (_loss_detection_alarm s) (_handshake_count s) (_tlp_count s)
    (_rto_count s) (_largest_sent_before_rto s) (_largest_sent_packet s)
    (_largest_acked_packet s) (_time_of_last_sent_packet s) (_latest_rtt s) v
    (_rttvar s) (_loss_time s) (_sent_packets s) (_handshake_outstanding s)
    (_retransmittable_outstanding s) (_loss_detection_alarm_at s).

Definition with_rttvar (v : Z) (s : State) : State :=
  mkState
    (_connection_id s) (_reordering_threshold s) (_time_reordering_fraction s)
    (_loss_detection_alarm s) (_handshake_count s) (_tlp_count s)
    (_rto_count s) (_largest_sent_before_rto s) (_largest_sent_packet s)
    (_largest_acked_packet s) (_time_of_last_sent_packet s) (_latest_rtt s)
    (_smoothed_rtt s) v (_loss_time s) (_sent_packets s)
    (_handshake_outstanding s) (_retransmittable_outstanding s)
    (_loss_detection_alarm_at s).

Definition with_loss_time (v : Z) (s : State) : State :=
  mkState
    (_connection_id s) (_reordering_threshold s) (_time_reordering_fraction s)
    (_loss_detection_alarm s) (_handshake_count s) (_tlp_count s)
    (_rto_count s) (_largest_sent_before_rto s) (_largest_sent_packet s)
    (_largest_acked_packet s) (_time_of_last_sent_packet s) (_latest_rtt s)
    (_smoothed_rtt s) (_rttvar s) v (_sent_packets s)
    (_handshake_outstanding s) (_retransmittable_outstanding s)
    (_loss_detection_alarm_at s).

Definition with_sent_packets (v : SentPackets) (s : State) : State :=
  mkState
    (_connection_id s) (_reordering_threshold s) (_time_reordering_fraction s)
    (_loss_detection_alarm s) (_handshake_count s) (_tlp_count s)
    (_rto_count s) (_largest_sent_before_rto s) (_largest_sent_packet s)
    (_largest_acked_packet s) (_time_of_last_sent_packet s) (_latest_rtt s)
    (_smoothed_rtt s) (_rttvar s) (_loss_time s) v (_handshake_outstanding s)
    (_retransmittable_outstanding s) (_loss_detection_alarm_at s).

Definition with_handshake_outstanding (v : Z) (s : State) : State :=
  mkState
    (_connection_id s) (_reordering_threshold s) (_time_reordering_fraction s)
    (_loss_detection_alarm s) (_handshake_count s) (_tlp_count s)
    (_rto_count s) (_largest_sent_before_rto s) (_largest_sent_packet s)
    (_largest_acked_packet s) (_time_of_last_sent_packet s) (_latest_rtt s)
    (_smoothed_rtt s) (_rttvar s) (_loss_time s) (_sent_packets s) v
    (_retransmittable_outstanding s) (_loss_detection_alarm_at s).

Definition with_retransmittable_outstanding (v : Z) (s : State) : State :=
  mkState
    (_connection_id s) (_reordering_threshold s) (_time_reordering_fraction s)
    (_loss_detection_alarm s) (_handshake_count s) (_tlp_count s)
    (_rto_count s) (_largest_sent_before_rto s) (_largest_sent_packet s)
    (_largest_acked_packet s) (_time_of_last_sent_packet s) (_latest_rtt s)
    (_smoothed_rtt s) (_rttvar s) (_loss_time s) (_sent_packets s)
    (_handshake_outstanding s) v (_loss_detection_alarm_at s).

Definition with_loss_detection_alarm_at (v : Z) (s : State) : State :=
  mkState
    (_connection_id s) (_reordering_threshold s) (_time_reordering_fraction s)
    (_loss_detection_alarm s) (_handshake_count s) (_tlp_count s)
    (_rto_count s) (_largest_sent_before_rto s) (_largest_sent_packet s)
    (_largest_acked_packet s) (_time_of_last_sent_packet s) (_latest_rtt s)
    (_smoothed_rtt s) (_rttvar s) (_loss_time s) (_sent_packets s)
    (_handshake_outstanding s) (_retransmittable_outstanding s) v.


(** ** Calls on the collaborators *)

Inductive Effect : Type :=
| transmit_packet
| retransmit_packet (p : QUICPacket.t)
| on_packets_lost (lost_packets : PacketSet).

(** ** QUICLossDetector::QUICLossDetector

    [_time_loss_detection] is a member initialised in the missing header;
    the constructor only reads it, so it is an argument here. *)
Definition QUICLossDetector (time_loss_detection : bool) : State :=
  mkState 0
    (if time_loss_detection then UINT32_MAX else _REORDERING_THRESHOLD)
    (if time_loss_detection then _TIME_REORDERING_FRACTION else INFINITY)
    false 0 0 0 0 0 0 0 0 0 0 0 [] 0 0 0.

Definition largest_acked_packet_number (s : State) : Z :=
  _largest_acked_packet s.

(** ** QUICLossDetector::_decrement_packet_count *)

Definition _decrement_packet_count (packet_number : Z) (s : State) : State :=
  match map_find packet_number (_sent_packets s) with
  | Some ite =>
      let s :=
        if handshake ite
        then with_handshake_outstanding (wrap32 (_handshake_outstanding s - 1)) s
        else s in
      if retransmittable ite
      then with_retransmittable_outstanding
             (wrap32 (_retransmittable_outstanding s - 1)) s
      else s
  | None => s
  end.

(** ** QUICLossDetector::_update_rtt

    [3 / 4], [1 / 4], [7 / 8] and [1 / 8] are quotients of [int] literals,
    evaluated before the multiplication. *)
Definition _update_rtt (latest_rtt : Z) (s : State) : State :=
  if _smoothed_rtt s =? 0 then
    with_rttvar (Z.quot latest_rtt 2) (with_smoothed_rtt latest_rtt s)
  else
    let s :=
      with_rttvar
        (Z.quot 3 4 * _rttvar s
         + Z.quot 1 4 * Z.abs (_smoothed_rtt s - latest_rtt)) s in
    with_smoothed_rtt
      (Z.quot 7 8 * _smoothed_rtt s + Z.quot 1 8 * latest_rtt) s.

(** ** QUICLossDetector::_set_loss_detection_alarm *)

(** The duration the mode selection computes.  [1 << n] is [2 ^ n] for the
    shift counts an [int] supports; [1.5 * smoothed_rtt + timeout] is a
    [double] truncated on assignment to [ink_hrtime]. *)
Definition alarm_duration (now : Z) (s : State) : Z :=
  if negb (_handshake_outstanding s =? 0) then
    let alarm_duration :=
      if _smoothed_rtt s =? 0 then 2 * _DEFAULT_INITIAL_RTT
      else 2 * _smoothed_rtt s in
    let alarm_duration := Z.max alarm_duration _MIN_TLP_TIMEOUT in
    alarm_duration * Z.shiftl 1 (_handshake_count s)
  else if negb (_loss_time s =? 0) then
    _loss_time s - now
  else if _tlp_count s <? _MAX_TLPS then
    let alarm_duration :=
      if negb (_retransmittable_outstanding s =? 0)
      then Qtrunc ((3 # 2) * inject_Z (_smoothed_rtt s)
                   + inject_Z _DELAYED_ACK_TIMEOUT)%Q
      else _MIN_TLP_TIMEOUT in
    Z.max alarm_duration (2 * _smoothed_rtt s)
  else
    let alarm_duration := _smoothed_rtt s + 4 * _rttvar s in
    let alarm_duration := Z.max alarm_duration _MIN_RTO_TIMEOUT in
    alarm_duration * Z.shiftl 1 (_rto_count s).

Definition _set_loss_detection_alarm (now : Z) (s : State) : State :=
  if (_retransmittable_outstanding s =? 0) && _loss_detection_alarm s then
    with_loss_detection_alarm false (with_loss_detection_alarm_at 0 s)
  else
    let alarm_duration := alarm_duration now s in
    let s :=
      if negb (_loss_detection_alarm_at s =? 0)
      then with_loss_detection_alarm_at
             (Z.min (_loss_detection_alarm_at s) (now + alarm_duration)) s
      else with_loss_detection_alarm_at (now + alarm_duration) s in
    if negb (_loss_detection_alarm s)
    then with_loss_detection_alarm true s
    else s.

(** ** QUICLossDetector::_detect_lost_packets *)

(** The local [uint32_t delay_until_lost] as the loop sees it.  It starts at
    [UINT32_MAX]; both assignments narrow to 32 bits ([wrap32]), and [9 / 8]
    is a quotient of [int] literals. *)
Definition delay_until_lost (largest_acked_packet_number : Z) (s : State) : Z :=
  match _time_reordering_fraction s with
  | Finite fraction =>
      wrap32 (Qtrunc ((1 + fraction)
                      * inject_Z (Z.max (_latest_rtt s) (_smoothed_rtt s)))%Q)
  | INFINITY =>
      if largest_acked_packet_number =? _largest_sent_packet s
      then wrap32 (Z.quot 9 8 * Z.max (_latest_rtt s) (_smoothed_rtt s))
      else UINT32_MAX
  end.

(** The walk over [_sent_packets] in ascending key order; its loop state is
    [_loss_time] and the local set [lost_packets].  [time_since_sent] is an
    [ink_hrtime] and is compared with the delay as a signed 64-bit value;
    [packet_delta] is a [uint64_t]. *)
Fixpoint detect_lost_loop (largest_acked_packet_number now delay threshold : Z)
    (m : SentPackets) (loss_time : Z) (lost_packets : PacketSet)
    : Z * PacketSet :=
  match m with
  | [] => (loss_time, lost_packets)
  | (first, second) :: m' =>
      if first >=? largest_acked_packet_number then (loss_time, lost_packets)
      else
        let time_since_sent := now - time second in
        let packet_delta :=
          wrap64 (largest_acked_packet_number - packet_number second) in
        if time_since_sent >? delay then
          detect_lost_loop largest_acked_packet_number now delay threshold m'
            loss_time (set_insert first lost_packets)
        else if packet_delta >? threshold then
          detect_lost_loop largest_acked_packet_number now delay threshold m'
            loss_time (set_insert first lost_packets)
        else if (loss_time =? 0) && uint32_ne_INFINITY delay then
          detect_lost_loop largest_acked_packet_number now delay threshold m'
            (now + delay - time_since_sent) lost_packets
        else
          detect_lost_loop largest_acked_packet_number now delay threshold m'
            loss_time lost_packets
  end.

(** Removal of one registry entry the way every path but the handshake
    retransmission does it: [_decrement_packet_count], then [erase]. *)
Definition forget_packet (s : State) (packet_number : Z) : State :=
  let s := _decrement_packet_count packet_number s in
  with_sent_packets (map_erase packet_number (_sent_packets s)) s.

(** [_loss_time] is reset, the walk runs, and a non-empty lost set is
    reported to the congestion controller and erased. *)
Definition _detect_lost_packets (largest_acked_packet_number now : Z)
    (s : State) : State * list Effect :=
  let delay := delay_until_lost largest_acked_packet_number s in
  let '(loss_time, lost_packets) :=
    detect_lost_loop largest_acked_packet_number now delay
      (_reordering_threshold s) (_sent_packets s) 0 [] in
  let s := with_loss_time loss_time s in
  match lost_packets with
  | [] => (s, [])
  | _ :: _ =>
      (fold_left forget_packet lost_packets s, [on_packets_lost lost_packets])
  end.

(** ** QUICLossDetector::_on_packet_sent and on_packet_sent *)

Definition _on_packet_sent (packet_number : Z)
    (is_retransmittable is_handshake : bool) (sent_bytes : Z)
    (packet : QUICPacket.t) (now : Z) (s : State) : State :=
  let s := with_largest_sent_packet packet_number s in
  let s := with_time_of_last_sent_packet now s in
  let packet_info :=
    mkPacketInfo packet_number (_time_of_last_sent_packet s)
      is_retransmittable is_handshake sent_bytes packet in
  let s :=
    with_sent_packets
      (map_insert packet_number packet_info (_sent_packets s)) s in
  let s :=
    if is_handshake
    then with_handshake_outstanding (wrap32 (_handshake_outstanding s + 1)) s
    else s in
  if is_retransmittable then
    _set_loss_detection_alarm now
      (with_retransmittable_outstanding
         (wrap32 (_retransmittable_outstanding s + 1)) s)
  else s.

Definition on_packet_sent (packet : QUICPacket.t) (now : Z) (s : State)
    : State :=
  let s :=
    if _connection_id s =? 0
    then with_connection_id (QUICPacket.connection_id packet) s
    else s in
  let is_handshake :=
    match QUICPacket.type packet with
    | INITIAL | HANDSHAKE => true
    | _ => false
    end in
  _on_packet_sent (QUICPacket.packet_number packet)
    (QUICPacket.is_retransmittable packet) is_handshake
    (QUICPacket.size packet) packet now s.

(** ** QUICLossDetector::_on_packet_acked

    The test for a spurious RTO guards an empty block. *)
Definition _on_packet_acked (s : State) (acked_packet_number : Z) : State :=
  let s := with_handshake_count 0 s in
  let s := with_tlp_count 0 s in
  let s := with_rto_count 0 s in
  forget_packet s acked_packet_number.

(** ** QUICLossDetector::_determine_newly_acked_packets

    A loop [for (uint64_t i = 0; i <= n; ++i)] runs [n + 1] times for the
    lengths an ACK frame can carry (below 2^64 - 1). *)
Fixpoint insert_run (count : nat) (x : Z) (packets : PacketSet)
    : Z * PacketSet :=
  match count with
  | O => (x, packets)
  | S count' => insert_run count' (wrap64 (x - 1)) (set_insert x packets)
  end.

Fixpoint ack_blocks_loop (blocks : list QUICAckFrame.AckBlock) (x : Z)
    (packets : PacketSet) : PacketSet :=
  match blocks with
  | [] => packets
  | block :: blocks' =>
      let x :=
        Nat.iter (S (Z.to_nat (QUICAckFrame.gap block)))
          (fun x => wrap64 (x - 1)) x in
      let '(x, packets) :=
        insert_run (S (Z.to_nat (QUICAckFrame.length block))) x packets in
      ack_blocks_loop blocks' x packets
  end.

Definition _determine_newly_acked_packets (ack_frame : QUICAckFrame.t)
    : PacketSet :=
  let x := QUICAckFrame.largest_acknowledged ack_frame in
  let '(x, packets) :=
    insert_run (S (Z.to_nat (QUICAckFrame.first_ack_block_length ack_frame)))
      x [] in
  ack_blocks_loop (QUICAckFrame.ack_block_section ack_frame) x packets.

(** ** QUICLossDetector::_on_ack_received *)

(** The head of [_on_ack_received]: when the largest acknowledged packet is
    still in the registry, [_latest_rtt] is sampled, reduced by the peer's
    ACK delay when it is larger than that, and fed to [_update_rtt]. *)
Definition ack_rtt_sample (ack_frame : QUICAckFrame.t) (now : Z) (s : State)
    : State :=
  match map_find (QUICAckFrame.largest_acknowledged ack_frame)
          (_sent_packets s) with
  | Some pi =>
      let s := with_latest_rtt (now - time pi) s in
      let s :=
        if _latest_rtt s >? HRTIME_MSECONDS (QUICAckFrame.ack_delay ack_frame)
        then with_latest_rtt
               (_latest_rtt s
                - HRTIME_MSECONDS (QUICAckFrame.ack_delay ack_frame)) s
        else s in
      _update_rtt (_latest_rtt s) s
  | None => s
  end.

Definition _on_ack_received (ack_frame : QUICAckFrame.t) (now : Z) (s : State)
    : State * list Effect :=
  let s :=
    with_largest_acked_packet (QUICAckFrame.largest_acknowledged ack_frame) s in
  let s := ack_rtt_sample ack_frame now s in
  let s :=
    fold_left _on_packet_acked (_determine_newly_acked_packets ack_frame) s in
  let '(s, calls) :=
    _detect_lost_packets (QUICAckFrame.largest_acknowledged ack_frame) now s in
  (_set_loss_detection_alarm now s, calls).

(** ** Retransmission actions *)

(** First loop of [_retransmit_handshake_packets]: it stops at the first
    entry that is not a handshake packet. *)
Fixpoint handshake_prefix (m : SentPackets)
    (retransmitted_handshake_packets : PacketSet) (calls : list Effect)
    : PacketSet * list Effect :=
  match m with
  | [] => (retransmitted_handshake_packets, calls)
  | (first, second) :: m' =>
      if negb (handshake second) then (retransmitted_handshake_packets, calls)
      else
        handshake_prefix m' (set_insert first retransmitted_handshake_packets)
          (calls ++ [retransmit_packet (packet second)])
  end.

(** Body of its second loop: [erase], then both counters are decremented. *)
Definition drop_handshake_packet (s : State) (packet_number : Z) : State :=
  let s := with_sent_packets (map_erase packet_number (_sent_packets s)) s in
  let s :=
    with_handshake_outstanding (wrap32 (_handshake_outstanding s - 1)) s in
  with_retransmittable_outstanding
    (wrap32 (_retransmittable_outstanding s - 1)) s.

Definition _retransmit_handshake_packets (s : State) : State * list Effect :=
  let '(retransmitted_handshake_packets, calls) :=
    handshake_prefix (_sent_packets s) [] [] in
  (fold_left drop_handshake_packet retransmitted_handshake_packets s, calls).

(** [queued] is what [transmit_packet] returns; [rbegin] is the entry with
    the largest packet number. *)
Definition _send_one_packet (queued : Z) (s : State) : list Effect :=
  transmit_packet ::
  (if queued <? 1 then
     match rev (_sent_packets s) with
     | ite :: _ => [retransmit_packet (packet (snd ite))]
     | [] => []
     end
   else []).

Definition _send_two_packets (s : State) : list Effect :=
  match rev (_sent_packets s) with
  | ite :: rest =>
      retransmit_packet (packet (snd ite)) ::
      match rest with
      | ite' :: _ => [retransmit_packet (packet (snd ite'))]
      | [] => []
      end
  | [] => [transmit_packet]
  end.

(** ** QUICLossDetector::_on_loss_detection_alarm and event_handler *)

Definition _on_loss_detection_alarm (now queued : Z) (s : State)
    : State * list Effect :=
  let '(s, calls) :=
    if negb (_handshake_outstanding s =? 0) then
      let '(s, calls) := _retransmit_handshake_packets s in
      (with_handshake_count (wrap32 (_handshake_count s + 1)) s, calls)
    else if negb (_loss_time s =? 0) then
      _detect_lost_packets (_largest_acked_packet s) now s
    else if _tlp_count s <? _MAX_TLPS then
      (with_tlp_count (wrap32 (_tlp_count s + 1)) s, _send_one_packet queued s)
    else
      let s :=
        if _rto_count s =? 0
        then with_largest_sent_before_rto (_largest_sent_packet s) s
        else s in
      (with_rto_count (wrap32 (_rto_count s + 1)) s, _send_two_packets s) in
  (_set_loss_detection_alarm now s, calls).

(** The shutdown event cancels the recurring timer event and writes no
    field. *)
Inductive EventKind : Type :=
| EVENT_INTERVAL
| QUIC_EVENT_LD_SHUTDOWN
| EVENT_OTHER.

Definition event_handler (event : EventKind) (now queued : Z) (s : State)
    : State * list Effect :=
  match event with
  | EVENT_INTERVAL =>
      if _loss_detection_alarm_at s <=? now
      then _on_loss_detection_alarm now queued s
      else (s, [])
  | QUIC_EVENT_LD_SHUTDOWN => (s, [])
  | EVENT_OTHER => (s, [])
  end.

(** ** Runs of the public operations *)

Inductive Operation : Type :=
| OpPacketSent (packet : QUICPacket.t) (now : Z)
| OpAckFrame (ack_frame : QUICAckFrame.t) (now : Z)
| OpEvent (event : EventKind) (now queued : Z).

Definition step (s : State) (op : Operation) : State :=
  match op with
  | OpPacketSent packet now => on_packet_sent packet now s
  | OpAckFrame ack_frame now => fst (_on_ack_received ack_frame now s)
  | OpEvent event now queued => fst (event_handler event now queued s)
  end.

Definition run (ops : list Operation) (s : State) : State :=
  fold_left step ops s.

(** The registry cardinalities the two counters are meant to track. *)
Definition count_handshake (m : SentPackets) : Z :=
  Z.of_nat (List.length (filter (fun e => handshake (snd e)) m)).

Definition count_retransmittable (m : SentPackets) : Z :=
  Z.of_nat (List.length (filter (fun e => retransmittable (snd e)) m)).

Definition counters_consistent (s : State) : Prop :=
  _handshake_outstanding s = count_handshake (_sent_packets s)
  /\ _retransmittable_outstanding s = count_retransmittable (_sent_packets s).

(** The registry's keys are distinct, the counters are in the range of a
    [uint32_t] and they equal the registry cardinalities. *)
Definition registry_sound (s : State) : Prop :=
  NoDup (map fst (_sent_packets s))
  /\ _handshake_outstanding s < 2 ^ 32
  /\ _retransmittable_outstanding s < 2 ^ 32
  /\ counters_consistent s.

(** ** Auxiliary notions used in the statements *)

(** Erasing a set of keys, one [erase] per key. *)
Definition erase_all (keys : PacketSet) (m : SentPackets) : SentPackets :=
  fold_left (fun m k => map_erase k m) keys m.

(** The state with the fields blanked that removals from the registry
    write; two states agree outside the registry and its counters when
    their images are equal.  [without_alarm] does the same for the alarm
    deadline and the timer handle. *)
Definition without_registry (s : State) : State :=
  with_sent_packets []
    (with_handshake_outstanding 0 (with_retransmittable_outstanding 0 s)).

Definition without_alarm (s : State) : State :=
  with_loss_detection_alarm false (with_loss_detection_alarm_at 0 s).

Definition reset_counts (s : State) : State :=
  with_rto_count 0 (with_tlp_count 0 (with_handshake_count 0 s)).

(** The state in which [_on_ack_received] runs loss detection. *)
Definition acked_state (ack_frame : QUICAckFrame.t) (now : Z) (s : State)
    : State :=
  fold_left _on_packet_acked (_determine_newly_acked_packets ack_frame)
    (ack_rtt_sample ack_frame now
       (with_largest_acked_packet
          (QUICAckFrame.largest_acknowledged ack_frame) s)).

(** ** What the specification prescribes, where the code is compared with it *)

(** The weighted averages of a later RTT sample. *)
Definition spec_rttvar (rttvar smoothed_rtt latest_rtt : Z) : Q :=
  (3 # 4) * inject_Z rttvar
  + (1 # 4) * inject_Z (Z.abs (smoothed_rtt - latest_rtt)).

Definition spec_smoothed_rtt (smoothed_rtt latest_rtt : Z) : Q :=
  (7 # 8) * inject_Z smoothed_rtt + (1 # 8) * inject_Z latest_rtt.

(** The early-retransmit delay. *)
Definition spec_early_retransmit_delay (latest_rtt smoothed_rtt : Z) : Q :=
  (9 # 8) * inject_Z (Z.max latest_rtt smoothed_rtt).

(** ** Concrete runs *)

Definition sample_packet (number : Z) (type : QUICPacketType)
    (retransmittable : bool) : QUICPacket.t :=
  QUICPacket.mk 1 type number retransmittable 100.

Definition sample_ack (largest : Z) : QUICAckFrame.t :=
  QUICAckFrame.mk largest 0 0 [].

Definition ms (n : Z) : Z := HRTIME_MSECONDS n.

(** Two handshake packets are sent, the second one without retransmittable
    content (it carries only an ACK); the handshake alarm then fires. *)
Definition handshake_flight : list Operation :=
  [OpPacketSent (sample_packet 1 HANDSHAKE true) 0;
   OpPacketSent (sample_packet 2 HANDSHAKE false) 0].

(** One packet acknowledged after 80 ms, a second one sent. *)
Definition one_sample_run : list Operation :=
  [OpPacketSent (sample_packet 1 OTHER true) 0;
   OpAckFrame (sample_ack 1) (ms 80);
   OpPacketSent (sample_packet 2 OTHER true) (ms 100)].

(** Three packets in flight; the ACK below covers only the second. *)
Definition three_in_flight : list Operation :=
  [OpPacketSent (sample_packet 1 OTHER true) 0;
   OpPacketSent (sample_packet 2 OTHER true) 0;
   OpPacketSent (sample_packet 3 OTHER true) 0].

(** One RTT sample of 50 ms in time-loss mode, then packet 2 is sent. *)
Definition time_mode_run : list Operation :=
  [OpPacketSent (sample_packet 1 OTHER true) 0;
   OpAckFrame (sample_ack 1) (ms 50);
   OpPacketSent (sample_packet 2 OTHER true) (ms 60)].


(** ** Notions used by the further properties *)

(** The state with loss time, registry, counters and alarm blanked: what is
    left is written by [_on_ack_received] only before the registry is
    touched. *)
Definition ack_core (s : State) : State :=
  with_loss_time 0 (without_registry (without_alarm s)).

(** The two tests by which the walk of [_detect_lost_packets] marks an
    entry lost. *)
Definition lost_criterion (largest now delay threshold : Z)
    (info : PacketInfo) : bool :=
  (now - time info >? delay)
  || (wrap64 (largest - packet_number info) >? threshold).

(** The handshake flag [on_packet_sent] derives from the packet type. *)
Definition is_handshake_type (type : QUICPacketType) : bool :=
  match type with
  | INITIAL | HANDSHAKE => true
  | _ => false
  end.

(** The packet numbers the additional ACK blocks describe when counted down
    from [x] (the number below the previous block) in the integers: each
    block first skips [gap + 1] numbers and then covers [length + 1]. *)
Fixpoint blocks_cover (blocks : list QUICAckFrame.AckBlock) (x k : Z) : Prop :=
  match blocks with
  | [] => False
  | block :: blocks' =>
      let top := x - (QUICAckFrame.gap block + 1) in
      top - QUICAckFrame.length block <= k <= top
      \/ blocks_cover blocks' (top - QUICAckFrame.length block - 1) k
  end.

Definition ack_covers (ack_frame : QUICAckFrame.t) (k : Z) : Prop :=
  let x := QUICAckFrame.largest_acknowledged ack_frame in
  let first := QUICAckFrame.first_ack_block_length ack_frame in
  x - first <= k <= x
  \/ blocks_cover (QUICAckFrame.ack_block_section ack_frame) (x - first - 1) k.

(** How far below the largest acknowledged number the blocks reach. *)
Fixpoint blocks_span (blocks : list QUICAckFrame.AckBlock) : Z :=
  match blocks with
  | [] => 0
  | block :: blocks' =>
      QUICAckFrame.gap block + QUICAckFrame.length block + 2
      + blocks_span blocks'
  end.

(** An ACK frame with unsigned fields whose blocks do not reach below
    packet number 0. *)
Definition ack_in_range (ack_frame : QUICAckFrame.t) : Prop :=
  0 <= QUICAckFrame.largest_acknowledged ack_frame < 2 ^ 64
  /\ 0 <= QUICAckFrame.first_ack_block_length ack_frame
  /\ Forall (fun block => 0 <= QUICAckFrame.gap block
                          /\ 0 <= QUICAckFrame.length block)
       (QUICAckFrame.ack_block_section ack_frame)
  /\ QUICAckFrame.first_ack_block_length ack_frame
     + blocks_span (QUICAckFrame.ack_block_section ack_frame)
     <= QUICAckFrame.largest_acknowledged ack_frame.

(** * Properties *)

(** ** Registry and set lemmas *)

Lemma set_insert_In (x k : Z) (s : PacketSet) :
  In k (set_insert x s) <-> k = x \/ In k s.
Proof.
  induction s as [|y s IH]; simpl.
  - intuition.
  - destruct (x <? y) eqn:Hlt; simpl; [intuition|].
    destruct (x =? y) eqn:Heq; simpl.
    + apply Z.eqb_eq in Heq; subst y. intuition.
    + rewrite IH. intuition.
Qed.

Lemma map_find_notin (k : Z) (m : SentPackets) :
  ~ In k (map fst m) -> map_find k m = None.
Proof.
  induction m as [|[k' v'] m IH]; simpl; [reflexivity|]. intros H.
  destruct (k =? k') eqn:E.
  - apply Z.eqb_eq in E. subst. tauto.
  - apply IH. tauto.
Qed.

Lemma map_erase_absent (k : Z) (m : SentPackets) :
  map_find k m = None -> map_erase k m = m.
Proof.
  induction m as [|[k' v'] m IH]; simpl; [reflexivity|].
  destruct (k =? k'); [discriminate|]. intros H. now rewrite IH.
Qed.

Lemma erase_all_nil (keys : PacketSet) : erase_all keys [] = [].
Proof. induction keys; simpl; auto. Qed.

Lemma erase_all_cons (keys : PacketSet) (k : Z) (v : PacketInfo)
    (m : SentPackets) :
  erase_all keys ((k, v) :: m) =
  if existsb (Z.eqb k) keys then erase_all keys m
  else (k, v) :: erase_all keys m.
Proof.
  revert m. induction keys as [|x keys IH]; intros m; simpl; [reflexivity|].
  rewrite (Z.eqb_sym k x). destruct (x =? k) eqn:E; simpl.
  - apply Z.eqb_eq in E. now subst.
  - apply IH.
Qed.

Lemma existsb_eqb_In (k : Z) (keys : PacketSet) :
  existsb (Z.eqb k) keys = true <-> In k keys.
Proof.
  rewrite existsb_exists. split.
  - intros [x [Hin E]]. apply Z.eqb_eq in E. now subst.
  - intros Hin. exists k. split; [assumption | apply Z.eqb_refl].
Qed.

Lemma erase_all_keys (keys : PacketSet) (m : SentPackets) (k : Z) :
  In k (map fst (erase_all keys m)) -> In k (map fst m).
Proof.
  induction m as [|[k' v'] m IH].
  - now rewrite erase_all_nil.
  - rewrite erase_all_cons. destruct (existsb (Z.eqb k') keys); simpl; tauto.
Qed.

Lemma erase_all_NoDup (keys : PacketSet) (m : SentPackets) :
  NoDup (map fst m) -> NoDup (map fst (erase_all keys m)).
Proof.
  induction m as [|[k' v'] m IH]; intros H.
  - rewrite erase_all_nil. constructor.
  - rewrite erase_all_cons. inversion H; subst.
    destruct (existsb (Z.eqb k') keys); simpl; auto.
    constructor; auto. intros Hin. now apply erase_all_keys in Hin.
Qed.

Lemma erase_all_find_erased (keys : PacketSet) (m : SentPackets) (k : Z) :
  In k keys -> map_find k (erase_all keys m) = None.
Proof.
  intros Hin. induction m as [|[k' v'] m IH].
  - now rewrite erase_all_nil.
  - rewrite erase_all_cons.
    destruct (existsb (Z.eqb k') keys) eqn:E; [assumption|]. simpl.
    destruct (k =? k') eqn:Ek; [|assumption].
    apply Z.eqb_eq in Ek. subst k'.
    apply existsb_eqb_In in Hin. congruence.
Qed.

Lemma erase_all_find_absent (keys : PacketSet) (m : SentPackets) (k : Z) :
  map_find k m = None -> map_find k (erase_all keys m) = None.
Proof.
  induction m as [|[k' v'] m IH]; intros H.
  - now rewrite erase_all_nil.
  - rewrite erase_all_cons. simpl in H.
    destruct (k =? k') eqn:Ek; [discriminate|].
    destruct (existsb (Z.eqb k') keys); simpl; [auto|].
    rewrite Ek. auto.
Qed.

Lemma map_wf_from_keys (lo : Z) (m : SentPackets) :
  map_wf_from lo m = true ->
  NoDup (map fst m) /\ forall k, In k (map fst m) -> lo < k.
Proof.
  revert lo. induction m as [|[k v] m IH]; intros lo H; simpl in *.
  - split; [constructor | tauto].
  - apply andb_true_iff in H. destruct H as [Hlo Hm].
    apply Z.ltb_lt in Hlo. destruct (IH k Hm) as [Hnd Hgt].
    split.
    + constructor; [|assumption]. intros Hin. apply Hgt in Hin. lia.
    + intros j [<-|Hj]; [assumption|]. apply Hgt in Hj. lia.
Qed.

Lemma map_wf_NoDup (m : SentPackets) :
  map_wf m = true -> NoDup (map fst m).
Proof.
  destruct m as [|[k v] m]; simpl; intros H; [constructor|].
  destruct (map_wf_from_keys k m H) as [Hnd Hgt].
  constructor; [|assumption]. intros Hin. apply Hgt in Hin. lia.
Qed.

(** ** Frame lemmas: which fields an operation can touch *)

Lemma fold_left_step {A B : Type} (f : A -> B -> A) (b : B) (l : list B)
    (a : A) :
  fold_left f (b :: l) a = fold_left f l (f a b).
Proof. reflexivity. Qed.

Lemma with_sent_packets_same (s : State) :
  with_sent_packets (_sent_packets s) s = s.
Proof. destruct s; reflexivity. Qed.

Lemma with_loss_time_same (s : State) : with_loss_time (_loss_time s) s = s.
Proof. destruct s; reflexivity. Qed.

Lemma with_largest_acked_packet_same (s : State) :
  with_largest_acked_packet (_largest_acked_packet s) s = s.
Proof. destruct s; reflexivity. Qed.

Lemma decrement_packet_count_frame (n : Z) (s : State) :
  without_registry (_decrement_packet_count n s) = without_registry s.
Proof.
  unfold _decrement_packet_count.
  destruct (map_find n (_sent_packets s)) as [ite|]; [|reflexivity].
  destruct (handshake ite), (retransmittable ite); reflexivity.
Qed.

Lemma decrement_packet_count_registry (n : Z) (s : State) :
  _sent_packets (_decrement_packet_count n s) = _sent_packets s.
Proof.
  unfold _decrement_packet_count.
  destruct (map_find n (_sent_packets s)) as [ite|]; [|reflexivity].
  destruct (handshake ite), (retransmittable ite); reflexivity.
Qed.

Lemma forget_packet_frame (s : State) (n : Z) :
  without_registry (forget_packet s n) = without_registry s.
Proof.
  unfold forget_packet. rewrite <- (decrement_packet_count_frame n s).
  reflexivity.
Qed.

Lemma forget_packet_registry (s : State) (n : Z) :
  _sent_packets (forget_packet s n) = map_erase n (_sent_packets s).
Proof.
  unfold forget_packet. simpl. now rewrite decrement_packet_count_registry.
Qed.

Lemma forget_packet_absent (s : State) (n : Z) :
  map_find n (_sent_packets s) = None -> forget_packet s n = s.
Proof.
  intros H. unfold forget_packet, _decrement_packet_count. rewrite H.
  rewrite (map_erase_absent _ _ H). apply with_sent_packets_same.
Qed.

Lemma forget_all_frame (keys : PacketSet) (s : State) :
  without_registry (fold_left forget_packet keys s) = without_registry s.
Proof.
  revert s. induction keys as [|n keys IH]; intros s; simpl; [reflexivity|].
  rewrite IH. apply forget_packet_frame.
Qed.

Lemma forget_all_registry (keys : PacketSet) (s : State) :
  _sent_packets (fold_left forget_packet keys s)
  = erase_all keys (_sent_packets s).
Proof.
  revert s. induction keys as [|n keys IH]; intros s; simpl; [reflexivity|].
  rewrite IH. now rewrite forget_packet_registry.
Qed.

Lemma forget_packet_reset_counts (s : State) (n : Z) :
  forget_packet (reset_counts s) n = reset_counts (forget_packet s n).
Proof.
  unfold forget_packet, _decrement_packet_count. simpl.
  destruct (map_find n (_sent_packets s)) as [ite|]; [|reflexivity].
  destruct (handshake ite), (retransmittable ite); reflexivity.
Qed.

Lemma reset_counts_idem (s : State) :
  reset_counts (reset_counts s) = reset_counts s.
Proof. destruct s; reflexivity. Qed.

Lemma on_packet_acked_forget (s : State) (n : Z) :
  _on_packet_acked s n = reset_counts (forget_packet s n).
Proof.
  change (_on_packet_acked s n) with (forget_packet (reset_counts s) n).
  apply forget_packet_reset_counts.
Qed.

Lemma on_packets_acked_after_reset (keys : PacketSet) (s : State) :
  fold_left _on_packet_acked keys (reset_counts s)
  = reset_counts (fold_left forget_packet keys s).
Proof.
  revert s. induction keys as [|n keys IH]; intros s; [reflexivity|].
  rewrite !fold_left_step.
  rewrite on_packet_acked_forget, forget_packet_reset_counts.
  rewrite reset_counts_idem.
  exact (IH (forget_packet s n)).
Qed.

Lemma on_packets_acked_forget (n : Z) (keys : PacketSet) (s : State) :
  fold_left _on_packet_acked (n :: keys) s
  = reset_counts (fold_left forget_packet (n :: keys) s).
Proof.
  rewrite !fold_left_step, on_packet_acked_forget.
  exact (on_packets_acked_after_reset keys (forget_packet s n)).
Qed.

Lemma set_loss_detection_alarm_frame (now : Z) (s : State) :
  without_alarm (_set_loss_detection_alarm now s) = without_alarm s.
Proof.
  unfold _set_loss_detection_alarm.
  destruct ((_retransmittable_outstanding s =? 0) && _loss_detection_alarm s);
    [reflexivity|].
  generalize (alarm_duration now s). intros d. destruct s. cbn.
  repeat match goal with |- context [if ?b then _ else _] => destruct b end;
    reflexivity.
Qed.

Lemma update_rtt_registry (latest_rtt : Z) (s : State) :
  _sent_packets (_update_rtt latest_rtt s) = _sent_packets s
  /\ _largest_acked_packet (_update_rtt latest_rtt s) = _largest_acked_packet s.
Proof.
  unfold _update_rtt. destruct (_smoothed_rtt s =? 0); split; reflexivity.
Qed.

Lemma ack_rtt_sample_registry (ack_frame : QUICAckFrame.t) (now : Z)
    (s : State) :
  _sent_packets (ack_rtt_sample ack_frame now s) = _sent_packets s
  /\ _largest_acked_packet (ack_rtt_sample ack_frame now s)
     = _largest_acked_packet s.
Proof.
  unfold ack_rtt_sample.
  destruct (map_find _ (_sent_packets s)) as [pi|]; [|split; reflexivity].
  match goal with
  | |- context [_update_rtt ?l ?s'] =>
      destruct (update_rtt_registry l s') as [Hm Hl]; rewrite Hm, Hl
  end.
  simpl.
  destruct (now - time pi >? HRTIME_MSECONDS (QUICAckFrame.ack_delay ack_frame));
    split; reflexivity.
Qed.

Lemma detect_lost_packets_fst (largest now : Z) (s : State) :
  fst (_detect_lost_packets largest now s)
  = fold_left forget_packet
      (snd (detect_lost_loop largest now (delay_until_lost largest s)
              (_reordering_threshold s) (_sent_packets s) 0 []))
      (with_loss_time
         (fst (detect_lost_loop largest now (delay_until_lost largest s)
                 (_reordering_threshold s) (_sent_packets s) 0 []))
         s).
Proof.
  unfold _detect_lost_packets.
  destruct (detect_lost_loop _ _ _ _ _ _ _) as [lt [|k lost]]; reflexivity.
Qed.

(** ** The newly acked set always holds the largest acknowledged number *)

Lemma insert_run_mono (count : nat) (x k : Z) (packets : PacketSet) :
  In k packets -> In k (snd (insert_run count x packets)).
Proof.
  revert x packets. induction count as [|count IH]; intros x packets H; simpl.
  - assumption.
  - apply IH. apply set_insert_In. auto.
Qed.

Lemma ack_blocks_loop_mono (blocks : list QUICAckFrame.AckBlock) (x k : Z)
    (packets : PacketSet) :
  In k packets -> In k (ack_blocks_loop blocks x packets).
Proof.
  revert x packets. induction blocks as [|b blocks IH]; intros x packets H.
  - assumption.
  - cbn [ack_blocks_loop].
    destruct (insert_run _ _ packets) as [x' packets'] eqn:E.
    apply IH. change packets' with (snd (x', packets')). rewrite <- E.
    now apply insert_run_mono.
Qed.

Lemma determine_newly_acked_largest (ack_frame : QUICAckFrame.t) :
  In (QUICAckFrame.largest_acknowledged ack_frame)
     (_determine_newly_acked_packets ack_frame).
Proof.
  unfold _determine_newly_acked_packets.
  destruct (insert_run _ _ []) as [x packets] eqn:E.
  apply ack_blocks_loop_mono.
  change packets with (snd (x, packets)). rewrite <- E.
  cbn [insert_run]. apply insert_run_mono. simpl. auto.
Qed.

(** ** The loss-detection walk *)

Section DetectLoop.
Variables largest now delay threshold : Z.

Local Abbreviation walk := (detect_lost_loop largest now delay threshold).

Lemma detect_lost_loop_lost (m : SentPackets) (lt : Z) (acc : PacketSet) :
  (forall k, In k acc -> In k (snd (walk m lt acc)))
  /\ (forall k, In k (snd (walk m lt acc)) -> In k acc \/ In k (map fst m)).
Proof.
  revert lt acc.
  induction m as [|[k v] m IH]; intros lt acc; simpl; [tauto|].
  destruct (k >=? largest); simpl; [tauto|].
  destruct (now - time v >? delay);
    [|destruct (wrap64 (largest - packet_number v) >? threshold);
      [|destruct ((lt =? 0) && uint32_ne_INFINITY delay)]];
    match goal with
    | |- context [detect_lost_loop _ _ _ _ m ?l ?a] =>
        destruct (IH l a) as [Hin Hout]
    end;
    split; intros j Hj;
    try (apply Hout in Hj; rewrite ?set_insert_In in Hj;
         simpl; intuition auto; fail);
    try (apply Hin; rewrite ?set_insert_In; auto).
Qed.

(** Walking the registry again after the lost entries were erased marks
    nothing and computes the same [_loss_time]. *)
Lemma detect_lost_loop_survivors (m : SentPackets) :
  forall (lt : Z) (acc X : PacketSet),
    NoDup (map fst m) ->
    (forall k, In k acc -> ~ In k (map fst m)) ->
    (forall k, In k (map fst m) -> (In k X <-> In k (snd (walk m lt acc)))) ->
    walk (erase_all X m) lt [] = (fst (walk m lt acc), []).
Proof.
  induction m as [|[k v] m IH]; intros lt acc X Hnd Hacc HX.
  - rewrite erase_all_nil. reflexivity.
  - inversion Hnd as [|? ? Hk Hnd']; subst.
    rewrite erase_all_cons.
    assert (Hkeep : ~ In k acc) by (intros Hin; apply (Hacc k Hin); simpl; auto).
    cbn [detect_lost_loop] in *.
    destruct (k >=? largest) eqn:Hge.
    + assert (E : existsb (Z.eqb k) X = false).
      { destruct (existsb (Z.eqb k) X) eqn:E; [|reflexivity].
        apply existsb_eqb_In in E. apply HX in E; simpl; auto. tauto. }
      rewrite E. cbn [detect_lost_loop]. rewrite Hge. reflexivity.
    + assert (Hlost : forall l,
                 In k (snd (detect_lost_loop largest now delay threshold m l
                              (set_insert k acc)))).
      { intros l. apply detect_lost_loop_lost. apply set_insert_In. auto. }
      assert (Hsurv : forall l,
                 ~ In k (snd (detect_lost_loop largest now delay threshold m l
                                acc))).
      { intros l Hin. apply detect_lost_loop_lost in Hin. tauto. }
      assert (Hacc' : forall j, In j (set_insert k acc) -> ~ In j (map fst m)).
      { intros j Hj Hjm. apply set_insert_In in Hj. destruct Hj as [->|Hj].
        - tauto.
        - apply (Hacc j Hj). simpl. auto. }
      assert (Hacc'' : forall j, In j acc -> ~ In j (map fst m)).
      { intros j Hj Hjm. apply (Hacc j Hj). simpl. auto. }
      destruct (now - time v >? delay) eqn:Htime;
        [|destruct (wrap64 (largest - packet_number v) >? threshold) eqn:Hdelta;
          [|destruct ((lt =? 0) && uint32_ne_INFINITY delay) eqn:Hlt]].
      * assert (E : existsb (Z.eqb k) X = true).
        { apply existsb_eqb_In. apply HX; simpl; auto. }
        rewrite E. apply IH; auto; intros j Hj; apply HX; simpl; auto.
      * assert (E : existsb (Z.eqb k) X = true).
        { apply existsb_eqb_In. apply HX; simpl; auto. }
        rewrite E. apply IH; auto; intros j Hj; apply HX; simpl; auto.
      * assert (E : existsb (Z.eqb k) X = false).
        { destruct (existsb (Z.eqb k) X) eqn:E; [|reflexivity].
          apply existsb_eqb_In in E. apply HX in E; simpl; auto.
          now apply Hsurv in E. }
        rewrite E. cbn [detect_lost_loop]. rewrite Hge, Htime, Hdelta, Hlt.
        apply IH; auto; intros j Hj; apply HX; simpl; auto.
      * assert (E : existsb (Z.eqb k) X = false).
        { destruct (existsb (Z.eqb k) X) eqn:E; [|reflexivity].
          apply existsb_eqb_In in E. apply HX in E; simpl; auto.
          now apply Hsurv in E. }
        rewrite E. cbn [detect_lost_loop]. rewrite Hge, Htime, Hdelta, Hlt.
        apply IH; auto; intros j Hj; apply HX; simpl; auto.
Qed.
End DetectLoop.

(** ** A second delivery of the same ACK frame *)

Lemma delay_until_lost_ext (largest : Z) (s s' : State) :
  _time_reordering_fraction s' = _time_reordering_fraction s ->
  _latest_rtt s' = _latest_rtt s ->
  _smoothed_rtt s' = _smoothed_rtt s ->
  _largest_sent_packet s' = _largest_sent_packet s ->
  delay_until_lost largest s' = delay_until_lost largest s.
Proof.
  intros Hf Hl Hs Hp. unfold delay_until_lost. now rewrite Hf, Hl, Hs, Hp.
Qed.

Lemma detect_lost_packets_again (largest now : Z) (s s1 : State) :
  NoDup (map fst (_sent_packets s)) ->
  without_alarm s1 = without_alarm (fst (_detect_lost_packets largest now s)) ->
  _detect_lost_packets largest now s1 = (s1, []).
Proof.
  intros Hnd H1. rewrite detect_lost_packets_fst in H1.
  pose proof (detect_lost_loop_survivors largest now
                (delay_until_lost largest s) (_reordering_threshold s)
                (_sent_packets s) 0 []
                (snd (detect_lost_loop largest now (delay_until_lost largest s)
                        (_reordering_threshold s) (_sent_packets s) 0 []))
                Hnd) as Hwalk.
  remember (snd (detect_lost_loop largest now (delay_until_lost largest s)
                   (_reordering_threshold s) (_sent_packets s) 0 []))
    as lost eqn:Elost.
  remember (fst (detect_lost_loop largest now (delay_until_lost largest s)
                   (_reordering_threshold s) (_sent_packets s) 0 []))
    as lt eqn:Elt.
  assert (HC : without_registry (fold_left forget_packet lost (with_loss_time lt s))
               = without_registry (with_loss_time lt s))
    by apply forget_all_frame.
  assert (Hreg : _sent_packets (fold_left forget_packet lost (with_loss_time lt s))
                 = erase_all lost (_sent_packets s))
    by exact (forget_all_registry lost (with_loss_time lt s)).
  remember (fold_left forget_packet lost (with_loss_time lt s)) as sC eqn:EC.
  clear EC.
  assert (Hm : _sent_packets s1 = erase_all lost (_sent_packets s))
    by (rewrite <- Hreg; exact (f_equal _sent_packets H1)).
  assert (Hlt : _loss_time s1 = lt)
    by (transitivity (_loss_time sC);
        [exact (f_equal _loss_time H1) | exact (f_equal _loss_time HC)]).
  assert (Hth : _reordering_threshold s1 = _reordering_threshold s)
    by (transitivity (_reordering_threshold sC);
        [exact (f_equal _reordering_threshold H1)
        | exact (f_equal _reordering_threshold HC)]).
  assert (Hd : delay_until_lost largest s1 = delay_until_lost largest s).
  { apply delay_until_lost_ext.
    - transitivity (_time_reordering_fraction sC);
        [exact (f_equal _time_reordering_fraction H1)
        | exact (f_equal _time_reordering_fraction HC)].
    - transitivity (_latest_rtt sC);
        [exact (f_equal _latest_rtt H1) | exact (f_equal _latest_rtt HC)].
    - transitivity (_smoothed_rtt sC);
        [exact (f_equal _smoothed_rtt H1) | exact (f_equal _smoothed_rtt HC)].
    - transitivity (_largest_sent_packet sC);
        [exact (f_equal _largest_sent_packet H1)
        | exact (f_equal _largest_sent_packet HC)]. }
  unfold _detect_lost_packets. rewrite Hd, Hth, Hm, Hwalk.
  - rewrite <- Hlt. now rewrite with_loss_time_same.
  - simpl. tauto.
  - intros k _. tauto.
Qed.

Lemma reset_counts_fix (s : State) :
  _handshake_count s = 0 -> _tlp_count s = 0 -> _rto_count s = 0 ->
  reset_counts s = s.
Proof. destruct s; simpl; intros; subst; reflexivity. Qed.

Lemma on_packets_acked_absent (keys : PacketSet) (s : State) :
  reset_counts s = s ->
  (forall n, In n keys -> map_find n (_sent_packets s) = None) ->
  fold_left _on_packet_acked keys s = s.
Proof.
  intros Hc Hn. induction keys as [|n keys IH]; [reflexivity|].
  rewrite fold_left_step, on_packet_acked_forget.
  rewrite forget_packet_absent by (apply Hn; simpl; auto).
  rewrite Hc. apply IH. intros k Hk. apply Hn. simpl. auto.
Qed.

Lemma on_ack_received_fst (ack_frame : QUICAckFrame.t) (now : Z) (s : State) :
  fst (_on_ack_received ack_frame now s)
  = _set_loss_detection_alarm now
      (fst (_detect_lost_packets
              (QUICAckFrame.largest_acknowledged ack_frame) now
              (acked_state ack_frame now s))).
Proof.
  unfold _on_ack_received, acked_state.
  destruct (_detect_lost_packets _ _ _); reflexivity.
Qed.

Lemma acked_state_facts (ack_frame : QUICAckFrame.t) (now : Z) (s : State) :
  let sB := acked_state ack_frame now s in
  _sent_packets sB
  = erase_all (_determine_newly_acked_packets ack_frame) (_sent_packets s)
  /\ _largest_acked_packet sB = QUICAckFrame.largest_acknowledged ack_frame
  /\ reset_counts sB = sB.
Proof.
  unfold acked_state.
  pose proof (determine_newly_acked_largest ack_frame) as Hin.
  destruct (ack_rtt_sample_registry ack_frame now
              (with_largest_acked_packet
                 (QUICAckFrame.largest_acknowledged ack_frame) s))
    as [Hreg Hlargest].
  remember (ack_rtt_sample ack_frame now
              (with_largest_acked_packet
                 (QUICAckFrame.largest_acknowledged ack_frame) s)) as sA.
  clear HeqsA.
  change (_sent_packets sA = _sent_packets s) in Hreg.
  change (_largest_acked_packet sA
          = QUICAckFrame.largest_acknowledged ack_frame) in Hlargest.
  destruct (_determine_newly_acked_packets ack_frame) as [|n keys];
    [contradiction|].
  rewrite on_packets_acked_forget.
  pose proof (forget_all_frame (n :: keys) sA) as Hframe.
  pose proof (forget_all_registry (n :: keys) sA) as Hm.
  remember (fold_left forget_packet (n :: keys) sA) as sF. clear HeqsF.
  cbv zeta. split; [|split].
  - change (_sent_packets sF = erase_all (n :: keys) (_sent_packets s)).
    now rewrite Hm, Hreg.
  - change (_largest_acked_packet sF
            = QUICAckFrame.largest_acknowledged ack_frame).
    rewrite <- Hlargest. exact (f_equal _largest_acked_packet Hframe).
  - apply reset_counts_idem.
Qed.

Lemma on_ack_received_again (ack_frame : QUICAckFrame.t) (now : Z)
    (s : State) :
  map_wf (_sent_packets s) = true ->
  _on_ack_received ack_frame now (fst (_on_ack_received ack_frame now s))
  = (_set_loss_detection_alarm now (fst (_on_ack_received ack_frame now s)),
     []).
Proof.
  intros Hwf. rewrite on_ack_received_fst.
  destruct (acked_state_facts ack_frame now s) as [HregB [HlargestB HcountsB]].
  assert (HndB : NoDup (map fst (_sent_packets (acked_state ack_frame now s))))
    by (rewrite HregB; apply erase_all_NoDup, map_wf_NoDup, Hwf).
  remember (acked_state ack_frame now s) as sB eqn:EB. clear EB.
  pose proof (detect_lost_packets_fst
                (QUICAckFrame.largest_acknowledged ack_frame) now sB) as EC.
  pose proof (set_loss_detection_alarm_frame now
                (fst (_detect_lost_packets
                        (QUICAckFrame.largest_acknowledged ack_frame) now sB)))
    as H1.
  pose proof (detect_lost_packets_again
                (QUICAckFrame.largest_acknowledged ack_frame) now sB
                (_set_loss_detection_alarm now
                   (fst (_detect_lost_packets
                           (QUICAckFrame.largest_acknowledged ack_frame) now
                           sB)))
                HndB H1) as Hagain.
  remember (_set_loss_detection_alarm now
              (fst (_detect_lost_packets
                      (QUICAckFrame.largest_acknowledged ack_frame) now sB)))
    as s1 eqn:E1. clear E1.
  rewrite EC in H1.
  remember (snd (detect_lost_loop (QUICAckFrame.largest_acknowledged ack_frame)
                   now
                   (delay_until_lost
                      (QUICAckFrame.largest_acknowledged ack_frame) sB)
                   (_reordering_threshold sB) (_sent_packets sB) 0 []))
    as lost eqn:Elost. clear Elost.
  remember (fst (detect_lost_loop (QUICAckFrame.largest_acknowledged ack_frame)
                   now
                   (delay_until_lost
                      (QUICAckFrame.largest_acknowledged ack_frame) sB)
                   (_reordering_threshold sB) (_sent_packets sB) 0 []))
    as lt eqn:Elt. clear Elt EC.
  pose proof (forget_all_frame lost (with_loss_time lt sB)) as HC.
  pose proof (forget_all_registry lost (with_loss_time lt sB)) as HregC.
  remember (fold_left forget_packet lost (with_loss_time lt sB)) as sC eqn:EC.
  clear EC.
  change (_sent_packets sC = erase_all lost (_sent_packets sB)) in HregC.
  assert (Hreg1 : _sent_packets s1
                  = erase_all lost
                      (erase_all (_determine_newly_acked_packets ack_frame)
                         (_sent_packets s)))
    by (rewrite <- HregB, <- HregC; exact (f_equal _sent_packets H1)).
  assert (Hlargest1 : _largest_acked_packet s1
                      = QUICAckFrame.largest_acknowledged ack_frame).
  { rewrite <- HlargestB. transitivity (_largest_acked_packet sC).
    - exact (f_equal _largest_acked_packet H1).
    - exact (f_equal _largest_acked_packet HC). }
  assert (Hcounts1 : reset_counts s1 = s1).
  { apply reset_counts_fix.
    - transitivity (_handshake_count sC);
        [exact (f_equal _handshake_count H1)|].
      transitivity (_handshake_count sB);
        [exact (f_equal _handshake_count HC)|].
      rewrite <- HcountsB. reflexivity.
    - transitivity (_tlp_count sC); [exact (f_equal _tlp_count H1)|].
      transitivity (_tlp_count sB); [exact (f_equal _tlp_count HC)|].
      rewrite <- HcountsB. reflexivity.
    - transitivity (_rto_count sC); [exact (f_equal _rto_count H1)|].
      transitivity (_rto_count sB); [exact (f_equal _rto_count HC)|].
      rewrite <- HcountsB. reflexivity. }
  assert (Habsent : forall n, In n (_determine_newly_acked_packets ack_frame) ->
                              map_find n (_sent_packets s1) = None).
  { intros n Hn. rewrite Hreg1. apply erase_all_find_absent.
    now apply erase_all_find_erased. }
  assert (Hsame : with_largest_acked_packet
                    (QUICAckFrame.largest_acknowledged ack_frame) s1 = s1)
    by (rewrite <- Hlargest1; apply with_largest_acked_packet_same).
  assert (Hrtt : ack_rtt_sample ack_frame now s1 = s1).
  { unfold ack_rtt_sample.
    now rewrite (Habsent _ (determine_newly_acked_largest ack_frame)). }
  unfold _on_ack_received. cbv zeta.
  rewrite Hsame, Hrtt, (on_packets_acked_absent _ s1 Hcounts1 Habsent), Hagain.
  reflexivity.
Qed.

(** ** The alarm deadline *)

Lemma alarm_duration_frame (now : Z) (s s' : State) :
  without_alarm s' = without_alarm s ->
  alarm_duration now s' = alarm_duration now s.
Proof.
  destruct s, s'. unfold without_alarm. cbn. intros H.
  injection H as -> -> -> -> -> -> -> -> -> -> -> -> -> -> -> -> ->.
  reflexivity.
Qed.

Lemma set_loss_detection_alarm_armed (now : Z) (s : State) :
  (_retransmittable_outstanding s =? 0) && _loss_detection_alarm s = false ->
  _set_loss_detection_alarm now s
  = with_loss_detection_alarm true
      (with_loss_detection_alarm_at
         (if _loss_detection_alarm_at s =? 0
          then now + alarm_duration now s
          else Z.min (_loss_detection_alarm_at s) (now + alarm_duration now s))
         s).
Proof.
  intros H. unfold _set_loss_detection_alarm. rewrite H. clear H.
  generalize (alarm_duration now s). intros d. destruct s. cbn.
  match goal with |- context [?a =? 0] => destruct (a =? 0) end; cbn;
    match goal with |- context [negb ?b] => destruct b end;
    reflexivity.
Qed.

Lemma set_loss_detection_alarm_idem (now : Z) (s : State) :
  _retransmittable_outstanding s <> 0 ->
  _set_loss_detection_alarm now (_set_loss_detection_alarm now s)
  = _set_loss_detection_alarm now s.
Proof.
  intros Hr. apply Z.eqb_neq in Hr.
  assert (Hs : (_retransmittable_outstanding s =? 0)
               && _loss_detection_alarm s = false) by now rewrite Hr.
  pose proof (set_loss_detection_alarm_frame now s) as Hframe.
  pose proof (alarm_duration_frame now _ _ Hframe) as Hd.
  assert (Hs' : (_retransmittable_outstanding (_set_loss_detection_alarm now s)
                 =? 0)
                && _loss_detection_alarm (_set_loss_detection_alarm now s)
                = false).
  { replace (_retransmittable_outstanding (_set_loss_detection_alarm now s))
      with (_retransmittable_outstanding s)
      by (symmetry; exact (f_equal _retransmittable_outstanding Hframe)).
    now rewrite Hr. }
  rewrite (set_loss_detection_alarm_armed now _ Hs'), Hd.
  rewrite (set_loss_detection_alarm_armed now s Hs).
  generalize (alarm_duration now s). intros d. destruct s.
  unfold with_loss_detection_alarm, with_loss_detection_alarm_at. cbn.
  f_equal.
  match goal with
  | |- context [?a =? 0] => is_var a; destruct (Z.eqb_spec a 0)
  end;
    match goal with
    | |- context [?a =? 0] => destruct (Z.eqb_spec a 0)
    end; lia.
Qed.

(** ** The registry of every reachable state is a well-formed map *)

Lemma map_wf_from_weaken (lo lo' : Z) (m : SentPackets) :
  lo <= lo' -> map_wf_from lo' m = true -> map_wf_from lo m = true.
Proof.
  destruct m as [|[k v] m]; simpl; [reflexivity|]. intros Hle H.
  apply andb_true_iff in H. destruct H as [Hlt Hm]. apply Z.ltb_lt in Hlt.
  apply andb_true_iff. split; [apply Z.ltb_lt; lia | assumption].
Qed.

Lemma map_wf_from_wf (lo : Z) (m : SentPackets) :
  map_wf_from lo m = true -> map_wf m = true.
Proof.
  destruct m as [|[k v] m]; simpl; [reflexivity|]. intros H.
  apply andb_true_iff in H. tauto.
Qed.

Lemma map_insert_wf_from (lo k : Z) (v : PacketInfo) (m : SentPackets) :
  lo < k -> map_wf_from lo m = true ->
  map_wf_from lo (map_insert k v m) = true.
Proof.
  revert lo. induction m as [|[k' v'] m IH]; intros lo Hlo H; simpl in *.
  - apply andb_true_iff. split; [now apply Z.ltb_lt | reflexivity].
  - apply andb_true_iff in H. destruct H as [Hlt Hm].
    destruct (Z.ltb_spec k k').
    + simpl. rewrite Hm, andb_true_r.
      apply andb_true_iff. split; apply Z.ltb_lt; lia.
    + destruct (Z.eqb_spec k k'); simpl.
      * now rewrite Hlt, Hm.
      * rewrite Hlt. apply IH; [lia | assumption].
Qed.

Lemma map_insert_wf (k : Z) (v : PacketInfo) (m : SentPackets) :
  map_wf m = true -> map_wf (map_insert k v m) = true.
Proof.
  destruct m as [|[k' v'] m]; simpl; [reflexivity|]. intros H.
  destruct (Z.ltb_spec k k').
  - simpl. rewrite H. apply andb_true_iff.
    split; [now apply Z.ltb_lt | reflexivity].
  - destruct (Z.eqb_spec k k'); simpl; [assumption|].
    apply map_insert_wf_from; [lia | assumption].
Qed.

Lemma map_erase_wf_from (lo k : Z) (m : SentPackets) :
  map_wf_from lo m = true -> map_wf_from lo (map_erase k m) = true.
Proof.
  revert lo. induction m as [|[k' v'] m IH]; intros lo H; simpl in *;
    [reflexivity|].
  apply andb_true_iff in H. destruct H as [Hlt Hm].
  destruct (k =? k'); simpl.
  - apply IH. apply Z.ltb_lt in Hlt.
    apply (map_wf_from_weaken lo k'); [lia | assumption].
  - rewrite Hlt. now apply IH.
Qed.

Lemma map_erase_wf (k : Z) (m : SentPackets) :
  map_wf m = true -> map_wf (map_erase k m) = true.
Proof.
  induction m as [|[k' v'] m IH]; simpl; [reflexivity|]. intros H.
  destruct (k =? k'); simpl.
  - apply IH. now apply (map_wf_from_wf k').
  - now apply map_erase_wf_from.
Qed.

Lemma erase_all_wf (keys : PacketSet) (m : SentPackets) :
  map_wf m = true -> map_wf (erase_all keys m) = true.
Proof.
  revert m. induction keys as [|k keys IH]; intros m H; [assumption|].
  apply (IH (map_erase k m)). now apply map_erase_wf.
Qed.

Lemma set_loss_detection_alarm_registry (now : Z) (s : State) :
  _sent_packets (_set_loss_detection_alarm now s) = _sent_packets s.
Proof. exact (f_equal _sent_packets (set_loss_detection_alarm_frame now s)). Qed.

Lemma detect_lost_packets_registry (largest now : Z) (s : State) :
  exists keys,
    _sent_packets (fst (_detect_lost_packets largest now s))
    = erase_all keys (_sent_packets s).
Proof.
  rewrite detect_lost_packets_fst.
  eexists. apply (forget_all_registry _ (with_loss_time _ s)).
Qed.

Lemma drop_handshake_packets_registry (keys : PacketSet) (s : State) :
  _sent_packets (fold_left drop_handshake_packet keys s)
  = erase_all keys (_sent_packets s).
Proof.
  revert s. induction keys as [|k keys IH]; intros s; [reflexivity|].
  rewrite fold_left_step, IH. reflexivity.
Qed.

Lemma on_packet_sent_registry (packet_number : Z)
    (is_retransmittable is_handshake : bool) (sent_bytes : Z)
    (packet : QUICPacket.t) (now : Z) (s : State) :
  _sent_packets
    (_on_packet_sent packet_number is_retransmittable is_handshake sent_bytes
       packet now s)
  = map_insert packet_number
      (mkPacketInfo packet_number now is_retransmittable is_handshake
         sent_bytes packet)
      (_sent_packets s).
Proof.
  unfold _on_packet_sent. cbv zeta.
  destruct is_retransmittable, is_handshake;
    rewrite ?set_loss_detection_alarm_registry; reflexivity.
Qed.

Lemma on_packet_sent_registry_wf (packet : QUICPacket.t) (now : Z)
    (s : State) :
  map_wf (_sent_packets s) = true ->
  map_wf (_sent_packets (on_packet_sent packet now s)) = true.
Proof.
  intros H. unfold on_packet_sent. cbv zeta.
  rewrite on_packet_sent_registry.
  destruct (_connection_id s =? 0); now apply map_insert_wf.
Qed.

Lemma on_ack_received_registry_wf (ack_frame : QUICAckFrame.t) (now : Z)
    (s : State) :
  map_wf (_sent_packets s) = true ->
  map_wf (_sent_packets (fst (_on_ack_received ack_frame now s))) = true.
Proof.
  intros H. rewrite on_ack_received_fst, set_loss_detection_alarm_registry.
  destruct (detect_lost_packets_registry
              (QUICAckFrame.largest_acknowledged ack_frame) now
              (acked_state ack_frame now s)) as [keys ->].
  destruct (acked_state_facts ack_frame now s) as [-> _].
  now apply erase_all_wf, erase_all_wf.
Qed.

Lemma event_handler_registry_wf (event : EventKind) (now queued : Z)
    (s : State) :
  map_wf (_sent_packets s) = true ->
  map_wf (_sent_packets (fst (event_handler event now queued s))) = true.
Proof.
  intros H. destruct event; cbn [event_handler fst]; try assumption.
  destruct (_loss_detection_alarm_at s <=? now); [|assumption].
  unfold _on_loss_detection_alarm.
  destruct (negb (_handshake_outstanding s =? 0)).
  - unfold _retransmit_handshake_packets.
    destruct (handshake_prefix (_sent_packets s) [] []) as [keys calls].
    cbn [fst]. rewrite set_loss_detection_alarm_registry.
    change (map_wf (_sent_packets (fold_left drop_handshake_packet keys s))
            = true).
    rewrite drop_handshake_packets_registry. now apply erase_all_wf.
  - destruct (negb (_loss_time s =? 0)).
    + destruct (detect_lost_packets_registry (_largest_acked_packet s) now s)
        as [keys E].
      destruct (_detect_lost_packets (_largest_acked_packet s) now s)
        as [s' calls].
      cbn [fst] in *. rewrite set_loss_detection_alarm_registry, E.
      now apply erase_all_wf.
    + destruct (_tlp_count s <? _MAX_TLPS); cbn [fst];
        rewrite set_loss_detection_alarm_registry.
      * assumption.
      * destruct (_rto_count s =? 0); assumption.
Qed.

Lemma run_registry_wf (ops : list Operation) (s : State) :
  map_wf (_sent_packets s) = true ->
  map_wf (_sent_packets (run ops s)) = true.
Proof.
  unfold run. revert s. induction ops as [|op ops IH]; intros s H;
    [assumption|].
  rewrite fold_left_step. apply IH.
  destruct op; cbn [step].
  - now apply on_packet_sent_registry_wf.
  - now apply on_ack_received_registry_wf.
  - now apply event_handler_registry_wf.
Qed.

(** ** What [_decrement_packet_count] does for the counters *)

Lemma count_erase (f : PacketInfo -> bool) (n : Z) (m : SentPackets) :
  NoDup (map fst m) ->
  Z.of_nat (List.length (filter (fun e => f (snd e)) (map_erase n m)))
  = Z.of_nat (List.length (filter (fun e => f (snd e)) m))
    - match map_find n m with
      | Some ite => if f ite then 1 else 0
      | None => 0
      end.
Proof.
  induction m as [|[k v] m IH]; intros Hnd; [reflexivity|].
  inversion Hnd as [|? ? Hk Hnd']; subst.
  cbn [map_erase map_find filter snd].
  destruct (Z.eqb_spec n k) as [->|Hn].
  - rewrite (map_erase_absent k m) by now apply map_find_notin.
    destruct (f v); cbn [List.length]; lia.
  - cbn [filter snd]. specialize (IH Hnd').
    destruct (f v); cbn [List.length]; lia.
Qed.

(** Removal through [_decrement_packet_count] keeps the counters equal to
    the registry cardinalities. *)
Lemma forget_packet_counters (s : State) (n : Z) :
  NoDup (map fst (_sent_packets s)) ->
  _handshake_outstanding s < 2 ^ 32 ->
  _retransmittable_outstanding s < 2 ^ 32 ->
  counters_consistent s ->
  counters_consistent (forget_packet s n).
Proof.
  intros Hnd Hh Hr [Ch Cr]. unfold counters_consistent.
  rewrite forget_packet_registry.
  unfold count_handshake, count_retransmittable in *.
  rewrite (count_erase handshake n _ Hnd), (count_erase retransmittable n _ Hnd).
  rewrite <- Ch, <- Cr.
  assert (Hh0 : forall ite, map_find n (_sent_packets s) = Some ite ->
                            handshake ite = true ->
                            1 <= _handshake_outstanding s).
  { intros ite Hf Hi. rewrite Ch.
    pose proof (count_erase handshake n _ Hnd) as E. rewrite Hf, Hi in E. lia. }
  assert (Hr0 : forall ite, map_find n (_sent_packets s) = Some ite ->
                            retransmittable ite = true ->
                            1 <= _retransmittable_outstanding s).
  { intros ite Hf Hi. rewrite Cr.
    pose proof (count_erase retransmittable n _ Hnd) as E.
    rewrite Hf, Hi in E. lia. }
  unfold forget_packet, _decrement_packet_count.
  destruct (map_find n (_sent_packets s)) as [ite|] eqn:Hf; [|cbn; lia].
  specialize (Hh0 ite eq_refl). specialize (Hr0 ite eq_refl).
  destruct (handshake ite), (retransmittable ite); cbn;
    unfold wrap32; rewrite ?Z.mod_small; lia.
Qed.

(** The same holds along a whole ACK delivery: [_on_ack_received] keeps the
    counters equal to the registry cardinalities. *)

Lemma registry_sound_ext (s s' : State) :
  _sent_packets s' = _sent_packets s ->
  _handshake_outstanding s' = _handshake_outstanding s ->
  _retransmittable_outstanding s' = _retransmittable_outstanding s ->
  registry_sound s -> registry_sound s'.
Proof.
  unfold registry_sound, counters_consistent. intros -> -> ->. tauto.
Qed.

Lemma forget_packet_sound (s : State) (n : Z) :
  registry_sound s -> registry_sound (forget_packet s n).
Proof.
  intros (Hnd & Hh & Hr & Hc).
  pose proof (forget_packet_counters s n Hnd Hh Hr Hc) as [Ch Cr].
  pose proof (count_erase handshake n _ Hnd) as Eh.
  pose proof (count_erase retransmittable n _ Hnd) as Er.
  destruct Hc as [Ch0 Cr0].
  unfold count_handshake, count_retransmittable in *.
  rewrite forget_packet_registry in Ch, Cr.
  repeat split.
  - rewrite forget_packet_registry.
    apply (erase_all_NoDup [n] (_sent_packets s) Hnd).
  - rewrite Ch, Eh. destruct (map_find n (_sent_packets s)) as [ite|];
      [destruct (handshake ite)|]; lia.
  - rewrite Cr, Er. destruct (map_find n (_sent_packets s)) as [ite|];
      [destruct (retransmittable ite)|]; lia.
  - rewrite forget_packet_registry. exact Ch.
  - rewrite forget_packet_registry. exact Cr.
Qed.

Lemma forget_all_sound (keys : PacketSet) (s : State) :
  registry_sound s -> registry_sound (fold_left forget_packet keys s).
Proof.
  revert s. induction keys as [|n keys IH]; intros s H; [assumption|].
  rewrite fold_left_step. apply IH. now apply forget_packet_sound.
Qed.

Lemma ack_rtt_sample_counters (ack_frame : QUICAckFrame.t) (now : Z)
    (s : State) :
  _handshake_outstanding (ack_rtt_sample ack_frame now s)
  = _handshake_outstanding s
  /\ _retransmittable_outstanding (ack_rtt_sample ack_frame now s)
     = _retransmittable_outstanding s.
Proof.
  unfold ack_rtt_sample, _update_rtt.
  destruct (map_find _ (_sent_packets s)) as [pi|]; [|split; reflexivity].
  cbv zeta.
  repeat match goal with
         | |- context [if ?b then _ else _] => destruct b
         end; split; reflexivity.
Qed.

Lemma on_ack_received_sound (ack_frame : QUICAckFrame.t) (now : Z)
    (s : State) :
  registry_sound s -> registry_sound (fst (_on_ack_received ack_frame now s)).
Proof.
  intros H. rewrite on_ack_received_fst.
  pose proof (set_loss_detection_alarm_frame now
                (fst (_detect_lost_packets
                        (QUICAckFrame.largest_acknowledged ack_frame) now
                        (acked_state ack_frame now s)))) as H1.
  rewrite detect_lost_packets_fst in *.
  assert (HB : registry_sound (acked_state ack_frame now s)).
  { unfold acked_state.
    destruct (ack_rtt_sample_registry ack_frame now
                (with_largest_acked_packet
                   (QUICAckFrame.largest_acknowledged ack_frame) s)) as [Em _].
    destruct (ack_rtt_sample_counters ack_frame now
                (with_largest_acked_packet
                   (QUICAckFrame.largest_acknowledged ack_frame) s)) as [Eh Er].
    assert (HA : registry_sound
                   (ack_rtt_sample ack_frame now
                      (with_largest_acked_packet
                         (QUICAckFrame.largest_acknowledged ack_frame) s)))
      by (apply (registry_sound_ext s); assumption).
    remember (ack_rtt_sample ack_frame now
                (with_largest_acked_packet
                   (QUICAckFrame.largest_acknowledged ack_frame) s)) as sA.
    clear HeqsA Em Eh Er.
    destruct (_determine_newly_acked_packets ack_frame) as [|n keys];
      [assumption|].
    rewrite on_packets_acked_forget.
    apply (registry_sound_ext (fold_left forget_packet (n :: keys) sA));
      try reflexivity.
    now apply forget_all_sound. }
  remember (acked_state ack_frame now s) as sB eqn:EB. clear EB.
  match type of H1 with
  | context [fold_left forget_packet ?lost (with_loss_time ?lt sB)] =>
      assert (HC : registry_sound
                     (fold_left forget_packet lost (with_loss_time lt sB)))
        by (apply forget_all_sound;
            apply (registry_sound_ext sB); [reflexivity .. | assumption]);
      remember (fold_left forget_packet lost (with_loss_time lt sB)) as sC;
      clear HeqsC
  end.
  remember (_set_loss_detection_alarm now sC) as s1. clear Heqs1.
  apply (registry_sound_ext sC); [| | | assumption].
  - exact (f_equal _sent_packets H1).
  - exact (f_equal _handshake_outstanding H1).
  - exact (f_equal _retransmittable_outstanding H1).
Qed.

(** * The specification's claims *)

(** ** Counters and registry *)

(** C1: the counters do not always equal the registry cardinalities.  After
    a handshake retransmission that covered a handshake packet which is not
    retransmittable, the registry is empty while
    [_retransmittable_outstanding] has wrapped to 2^32 - 1:
    [_retransmit_handshake_packets] decrements both counters for every
    packet it erases instead of consulting the packet's flags as
    [_decrement_packet_count] does. *)
Theorem handshake_retransmission_breaks_counters :
  let before := run handshake_flight (QUICLossDetector false) in
  let after := step before (OpEvent EVENT_INTERVAL (ms 200) 0) in
  counters_consistent before
  /\ _sent_packets after = []
  /\ _handshake_outstanding after = 0
  /\ _retransmittable_outstanding after = 4294967295
  /\ ~ counters_consistent after.
Proof.
  cbv zeta. repeat split; try (vm_compute; reflexivity).
  intros [_ H]. vm_compute in H. discriminate.
Qed.

(** ** RTT estimator *)

(** The first sample initialises both estimates. *)
Lemma update_rtt_first_sample (latest_rtt : Z) (s : State) :
  _smoothed_rtt s = 0 ->
  _smoothed_rtt (_update_rtt latest_rtt s) = latest_rtt
  /\ _rttvar (_update_rtt latest_rtt s) = Z.quot latest_rtt 2.
Proof.
  intros H. unfold _update_rtt. rewrite H. split; reflexivity.
Qed.

(** Every later sample sets both estimates to 0, whatever its value. *)
Lemma update_rtt_later_sample (latest_rtt : Z) (s : State) :
  _smoothed_rtt s <> 0 ->
  _smoothed_rtt (_update_rtt latest_rtt s) = 0
  /\ _rttvar (_update_rtt latest_rtt s) = 0.
Proof.
  intros H. apply Z.eqb_neq in H. unfold _update_rtt. rewrite H.
  split; reflexivity.
Qed.

(** C2: the second RTT sample does not follow the weighted averages of the
    specification.  With [smoothed_rtt] = 80 ms and [rttvar] = 40 ms a sample
    of 80 ms must give [rttvar] = 30 ms and [smoothed_rtt] = 80 ms; the code
    evaluates [3 / 4], [1 / 4], [7 / 8] and [1 / 8] on integers, so both
    estimates become 0. *)
Theorem update_rtt_second_sample_is_zero :
  let s := run one_sample_run (QUICLossDetector false) in
  let s' := step s (OpAckFrame (sample_ack 2) (ms 180)) in
  _smoothed_rtt s = ms 80
  /\ _rttvar s = ms 40
  /\ _latest_rtt s' = ms 80
  /\ _rttvar s' = 0
  /\ _smoothed_rtt s' = 0
  /\ (spec_rttvar (ms 40) (ms 80) (ms 80) == inject_Z (ms 30))%Q
  /\ (spec_smoothed_rtt (ms 80) (ms 80) == inject_Z (ms 80))%Q
  /\ ~ (inject_Z (_rttvar s') == spec_rttvar (ms 40) (ms 80) (ms 80))%Q
  /\ ~ (inject_Z (_smoothed_rtt s') == spec_smoothed_rtt (ms 80) (ms 80))%Q.
Proof.
  cbv zeta. repeat split; try (vm_compute; reflexivity);
    intros H; vm_compute in H; discriminate.
Qed.

(** ** Loss detection *)

(** The three cases of [delay_until_lost]. *)
Lemma delay_until_lost_time_based (largest : Z) (s : State) (fraction : Q) :
  _time_reordering_fraction s = Finite fraction ->
  delay_until_lost largest s
  = wrap32 (Qtrunc ((1 + fraction)
                    * inject_Z (Z.max (_latest_rtt s) (_smoothed_rtt s)))%Q).
Proof. intros H. unfold delay_until_lost. now rewrite H. Qed.

Lemma delay_until_lost_early_retransmit (s : State) :
  _time_reordering_fraction s = INFINITY ->
  delay_until_lost (_largest_sent_packet s) s
  = wrap32 (Z.max (_latest_rtt s) (_smoothed_rtt s)).
Proof.
  intros H. unfold delay_until_lost. rewrite H, Z.eqb_refl.
  f_equal. change (Z.quot 9 8) with 1. apply Z.mul_1_l.
Qed.

Lemma delay_until_lost_otherwise (largest : Z) (s : State) :
  _time_reordering_fraction s = INFINITY ->
  largest <> _largest_sent_packet s ->
  delay_until_lost largest s = UINT32_MAX.
Proof.
  intros H Hn. apply Z.eqb_neq in Hn. unfold delay_until_lost.
  now rewrite H, Hn.
Qed.

(** C3: in early retransmit the delay is not 9/8 of the larger RTT.  With
    time-based detection off, [largest_acked] equal to
    [_largest_sent_packet] and both RTT values at 80 ms the specification
    gives 90 ms; the code evaluates [9 / 8] on integers and uses 80 ms. *)
Theorem early_retransmit_delay_is_plain_rtt :
  let s := run one_sample_run (QUICLossDetector false) in
  _time_reordering_fraction s = INFINITY
  /\ _largest_sent_packet s = 2
  /\ _latest_rtt s = ms 80
  /\ _smoothed_rtt s = ms 80
  /\ delay_until_lost 2 s = ms 80
  /\ (spec_early_retransmit_delay (_latest_rtt s) (_smoothed_rtt s)
      == inject_Z (ms 90))%Q.
Proof. cbv zeta. repeat split; vm_compute; reflexivity. Qed.

(** C5: [_loss_time] is armed although the delay is the "infinite" one.
    Time-based detection is off and the acknowledged packet 2 is not the
    largest sent packet 3, so [delay_until_lost] is [UINT32_MAX]; the guard
    [delay_until_lost != INFINITY] holds of every [uint32_t], and the
    surviving packet 1 sets [_loss_time] to now + UINT32_MAX - age. *)
Theorem loss_time_armed_with_infinite_delay :
  let s := run three_in_flight (QUICLossDetector false) in
  let sB := acked_state (sample_ack 2) (ms 10) s in
  let s' := fst (_detect_lost_packets 2 (ms 10) sB) in
  _time_reordering_fraction sB = INFINITY
  /\ _largest_sent_packet sB = 3
  /\ delay_until_lost 2 sB = UINT32_MAX
  /\ _loss_time s' = 4294967295
  /\ _loss_time (step s (OpAckFrame (sample_ack 2) (ms 10))) = 4294967295.
Proof. cbv zeta. repeat split; vm_compute; reflexivity. Qed.

(** C7: with time-loss detection on, a packet is still removed by the
    packet-count rule once the gap exceeds 32 bits.  Packet 2 is 1 ms old,
    well below the delay of 56.25 ms, so the time criterion fails; an ACK
    for packet 2^32 + 2 makes [packet_delta] = 2^32, which exceeds the
    threshold [UINT32_MAX], and the packet is reported lost and erased. *)
Theorem packet_count_rule_fires_in_time_mode :
  let s := run time_mode_run (QUICLossDetector true) in
  let largest := 2 ^ 32 + 2 in
  let now := ms 61 in
  _reordering_threshold s = UINT32_MAX
  /\ _time_reordering_fraction s = Finite (1 # 8)
  /\ map (fun e => (fst e, time (snd e))) (_sent_packets s) = [(2, ms 60)]
  /\ delay_until_lost largest s = 56250000
  /\ (now - ms 60 >? delay_until_lost largest s) = false
  /\ (wrap64 (largest - 2) >? _reordering_threshold s) = true
  /\ _sent_packets (fst (_on_ack_received (sample_ack largest) now s)) = []
  /\ snd (_on_ack_received (sample_ack largest) now s) = [on_packets_lost [2]].
Proof. cbv zeta. repeat split; vm_compute; reflexivity. Qed.

(** ** ACK processing *)

(** C4 as stated fails: an ACK frame whose largest acknowledged number is
    below the recorded one lowers [_largest_acked_packet]. *)
Lemma on_ack_received_lowers_largest_acked :
  ~ (forall (ack_frame : QUICAckFrame.t) (now : Z) (s : State),
        largest_acked_packet_number (fst (_on_ack_received ack_frame now s))
        = Z.max (largest_acked_packet_number s)
            (QUICAckFrame.largest_acknowledged ack_frame)).
Proof.
  intros H.
  specialize (H (sample_ack 3) 0
                (run [OpAckFrame (sample_ack 5) 0] (QUICLossDetector false))).
  vm_compute in H. discriminate.
Qed.

(** C4 (amended): after [_on_ack_received] the largest acknowledged packet
    number reported by [largest_acked_packet_number] is the frame's largest
    acknowledged number, whatever was recorded before. *)
Theorem on_ack_received_largest_acked (ack_frame : QUICAckFrame.t) (now : Z)
    (s : State) :
  largest_acked_packet_number (fst (_on_ack_received ack_frame now s))
  = QUICAckFrame.largest_acknowledged ack_frame.
Proof.
  unfold largest_acked_packet_number. rewrite on_ack_received_fst.
  destruct (acked_state_facts ack_frame now s) as [_ [Hlargest _]].
  cbv zeta in Hlargest.
  remember (acked_state ack_frame now s) as sB eqn:EB. clear EB.
  pose proof (set_loss_detection_alarm_frame now
                (fst (_detect_lost_packets
                        (QUICAckFrame.largest_acknowledged ack_frame) now sB)))
    as H1.
  remember (_set_loss_detection_alarm now
              (fst (_detect_lost_packets
                      (QUICAckFrame.largest_acknowledged ack_frame) now sB)))
    as s1 eqn:E1. clear E1.
  rewrite detect_lost_packets_fst in H1.
  match type of H1 with
  | context [fold_left forget_packet ?lost ?s0] =>
      pose proof (forget_all_frame lost s0) as HC;
      remember (fold_left forget_packet lost s0) as sC eqn:EC; clear EC
  end.
  rewrite <- Hlargest. transitivity (_largest_acked_packet sC).
  - exact (f_equal _largest_acked_packet H1).
  - exact (f_equal _largest_acked_packet HC).
Qed.

(** C9 as stated fails: a number that is not in the registry still resets
    the back-off counts.  Here a tail loss probe has fired ([_tlp_count] is
    1) and packet 9 was never sent. *)
Lemma on_packet_acked_absent_resets_counts :
  let s :=
    run [OpPacketSent (sample_packet 1 OTHER true) 0;
         OpEvent EVENT_INTERVAL (ms 30) 0] (QUICLossDetector false) in
  map_find 9 (_sent_packets s) = None
  /\ _tlp_count s = 1
  /\ _tlp_count (_on_packet_acked s 9) = 0
  /\ _on_packet_acked s 9 <> s.
Proof.
  cbv zeta. repeat split; try (vm_compute; reflexivity).
  intros H. apply (f_equal _tlp_count) in H. vm_compute in H. discriminate.
Qed.

(** C9 (amended): processing an acknowledged number that is not in the
    registry leaves the registry, both outstanding counters and every other
    field as they were, except that [_handshake_count], [_tlp_count] and
    [_rto_count] are reset to 0. *)
Theorem on_packet_acked_absent (s : State) (acked_packet_number : Z) :
  map_find acked_packet_number (_sent_packets s) = None ->
  _on_packet_acked s acked_packet_number
  = with_rto_count 0 (with_tlp_count 0 (with_handshake_count 0 s))
  /\ _sent_packets (_on_packet_acked s acked_packet_number) = _sent_packets s
  /\ _handshake_outstanding (_on_packet_acked s acked_packet_number)
     = _handshake_outstanding s
  /\ _retransmittable_outstanding (_on_packet_acked s acked_packet_number)
     = _retransmittable_outstanding s.
Proof.
  intros H.
  assert (E : _on_packet_acked s acked_packet_number = reset_counts s).
  { rewrite on_packet_acked_forget. now rewrite forget_packet_absent. }
  rewrite E. repeat split; reflexivity.
Qed.

Lemma on_packet_acked_absent_witness :
  let s :=
    run [OpPacketSent (sample_packet 1 OTHER true) 0;
         OpEvent EVENT_INTERVAL (ms 30) 0] (QUICLossDetector false) in
  map_find 9 (_sent_packets s) = None
  /\ _on_packet_acked s 9
     = with_rto_count 0 (with_tlp_count 0 (with_handshake_count 0 s)).
Proof.
  cbv zeta. split; [reflexivity|].
  apply (on_packet_acked_absent
           (run [OpPacketSent (sample_packet 1 OTHER true) 0;
                 OpEvent EVENT_INTERVAL (ms 30) 0] (QUICLossDetector false))
           9).
  reflexivity.
Defined.

(** C8 as stated fails: once the first delivery has emptied the registry and
    cancelled the alarm, the second delivery finds no timer handle, skips
    the cancellation and arms the alarm in tail-loss-probe mode. *)
Lemma on_ack_received_twice_rearms_alarm :
  let s :=
    run [OpPacketSent (sample_packet 1 OTHER true) 0] (QUICLossDetector false) in
  let s1 := fst (_on_ack_received (sample_ack 1) (ms 50) s) in
  let s2 := fst (_on_ack_received (sample_ack 1) (ms 50) s1) in
  _loss_detection_alarm_at s1 = 0
  /\ _loss_detection_alarm s1 = false
  /\ _loss_detection_alarm_at s2 = ms 150
  /\ _loss_detection_alarm s2 = true
  /\ s2 <> s1.
Proof.
  cbv zeta. repeat split; try (vm_compute; reflexivity).
  intros H. apply (f_equal _loss_detection_alarm) in H.
  vm_compute in H. discriminate.
Qed.

(** C8 (amended): delivering the same ACK frame a second time at the same
    clock reading changes nothing but, possibly, the alarm: registry,
    counters, RTT fields, [_loss_time], largest acknowledged and the three
    back-off counts are those of the first delivery, and when retransmittable
    packets are still outstanding after the first delivery the alarm deadline
    and the timer handle are unchanged too. *)
Theorem on_ack_received_twice (ack_frame : QUICAckFrame.t) (now : Z)
    (s : State) :
  map_wf (_sent_packets s) = true ->
  let s1 := fst (_on_ack_received ack_frame now s) in
  let s2 := fst (_on_ack_received ack_frame now s1) in
  without_alarm s2 = without_alarm s1
  /\ (_retransmittable_outstanding s1 <> 0 -> s2 = s1).
Proof.
  intros Hwf. cbv zeta. rewrite (on_ack_received_again ack_frame now s Hwf).
  cbn [fst]. split.
  - apply set_loss_detection_alarm_frame.
  - rewrite on_ack_received_fst.
    remember (fst (_detect_lost_packets
                     (QUICAckFrame.largest_acknowledged ack_frame) now
                     (acked_state ack_frame now s))) as sC eqn:EC. clear EC.
    intros Hr. apply set_loss_detection_alarm_idem.
    intros H0. apply Hr. rewrite <- H0.
    exact (f_equal _retransmittable_outstanding
             (set_loss_detection_alarm_frame now sC)).
Qed.

Lemma on_ack_received_twice_witness :
  let s := run three_in_flight (QUICLossDetector false) in
  let s1 := fst (_on_ack_received (sample_ack 2) (ms 10) s) in
  let s2 := fst (_on_ack_received (sample_ack 2) (ms 10) s1) in
  map_wf (_sent_packets s) = true
  /\ _retransmittable_outstanding s1 = 2
  /\ s2 = s1.
Proof.
  cbv zeta. split; [reflexivity|]. split; [reflexivity|].
  apply (on_ack_received_twice (sample_ack 2) (ms 10)
           (run three_in_flight (QUICLossDetector false))).
  - reflexivity.
  - vm_compute. discriminate.
Defined.

(** ** Alarm controller *)

(** C6 as stated fails: with nothing retransmittable outstanding and no
    timer handle, as on a fresh detector, [_set_loss_detection_alarm] does
    not cancel; it arms the alarm in tail-loss-probe mode. *)
Lemma set_alarm_arms_without_outstanding_packets :
  let s := QUICLossDetector false in
  _retransmittable_outstanding s = 0
  /\ _loss_detection_alarm_at (_set_loss_detection_alarm 0 s) = ms 10
  /\ _loss_detection_alarm (_set_loss_detection_alarm 0 s) = true
  /\ _loss_detection_alarm_at (step s (OpAckFrame (sample_ack 1) 0)) = ms 10.
Proof. cbv zeta. repeat split; vm_compute; reflexivity. Qed.

(** C6 (amended): with no retransmittable packet outstanding and a timer
    handle present, [_set_loss_detection_alarm] cancels the timer and sets
    the deadline to 0.  In every other call (retransmittable packets
    outstanding, or no timer handle yet) the timer is scheduled and the
    deadline becomes the minimum of the existing nonzero deadline and
    now + the mode's duration, or now + duration when the deadline was 0. *)
Theorem set_loss_detection_alarm_cases (now : Z) (s : State) :
  (_retransmittable_outstanding s = 0 ->
   _loss_detection_alarm s = true ->
   _set_loss_detection_alarm now s
   = with_loss_detection_alarm false (with_loss_detection_alarm_at 0 s))
  /\ (_retransmittable_outstanding s <> 0 \/ _loss_detection_alarm s = false ->
      _set_loss_detection_alarm now s
      = with_loss_detection_alarm true
          (with_loss_detection_alarm_at
             (if _loss_detection_alarm_at s =? 0
              then now + alarm_duration now s
              else Z.min (_loss_detection_alarm_at s)
                     (now + alarm_duration now s))
             s)).
Proof.
  split.
  - intros Hr Ha. unfold _set_loss_detection_alarm. now rewrite Hr, Ha.
  - intros H. apply set_loss_detection_alarm_armed.
    destruct H as [Hr|Ha].
    + apply Z.eqb_neq in Hr. now rewrite Hr.
    + rewrite Ha. apply andb_false_r.
Qed.

Lemma set_loss_detection_alarm_cases_witness :
  let idle :=
    run [OpPacketSent (sample_packet 1 OTHER true) 0] (QUICLossDetector false) in
  let drained := fst (_detect_lost_packets 9 (ms 5000) idle) in
  (_retransmittable_outstanding drained = 0
   /\ _loss_detection_alarm drained = true
   /\ _loss_detection_alarm_at (_set_loss_detection_alarm (ms 5000) drained) = 0)
  /\ (_retransmittable_outstanding idle = 1
      /\ _loss_detection_alarm_at idle = ms 25
      /\ _loss_detection_alarm_at (_set_loss_detection_alarm (ms 10) idle)
         = ms 25).
Proof.
  cbv zeta. split.
  - split; [reflexivity|]. split; [reflexivity|].
    rewrite (proj1 (set_loss_detection_alarm_cases (ms 5000)
                      (fst (_detect_lost_packets 9 (ms 5000)
                              (run [OpPacketSent (sample_packet 1 OTHER true) 0]
                                 (QUICLossDetector false))))));
      reflexivity.
  - split; [reflexivity|]. split; [reflexivity|].
    rewrite (proj2 (set_loss_detection_alarm_cases (ms 10)
                      (run [OpPacketSent (sample_packet 1 OTHER true) 0]
                         (QUICLossDetector false)))).
    + reflexivity.
    + left. vm_compute. discriminate.
Defined.

(** ** Handshake retransmission *)

(** C10: when the first registry entry is not a handshake packet, the
    handshake retransmission action retransmits nothing and returns the
    state unchanged, whatever [_handshake_outstanding] and the later entries
    are. *)
Theorem retransmit_handshake_packets_blocked (s : State) (first : Z)
    (second : PacketInfo) (rest : SentPackets) :
  _sent_packets s = (first, second) :: rest ->
  handshake second = false ->
  _retransmit_handshake_packets s = (s, []).
Proof.
  intros Hm Hh. unfold _retransmit_handshake_packets.
  rewrite Hm. cbn [handshake_prefix]. rewrite Hh. reflexivity.
Qed.

Lemma retransmit_handshake_packets_blocked_witness :
  let s :=
    run [OpPacketSent (sample_packet 1 OTHER true) 0;
         OpPacketSent (sample_packet 2 HANDSHAKE true) 0]
      (QUICLossDetector false) in
  _handshake_outstanding s = 1
  /\ map (fun e => (fst e, handshake (snd e))) (_sent_packets s)
     = [(1, false); (2, true)]
  /\ _retransmit_handshake_packets s = (s, []).
Proof.
  cbv zeta. split; [reflexivity|]. split; [reflexivity|].
  apply (retransmit_handshake_packets_blocked
           (run [OpPacketSent (sample_packet 1 OTHER true) 0;
                 OpPacketSent (sample_packet 2 HANDSHAKE true) 0]
              (QUICLossDetector false))
           1
           (mkPacketInfo 1 0 true false 100 (sample_packet 1 OTHER true))
           [(2, mkPacketInfo 2 0 true true 100
                  (sample_packet 2 HANDSHAKE true))]);
    reflexivity.
Defined.

(** * Further properties of the code *)

(** ** Registry lookups after removals *)

Lemma map_find_erase (k n : Z) (m : SentPackets) :
  map_find k (map_erase n m) = if k =? n then None else map_find k m.
Proof.
  induction m as [|[k' v'] m IH]; simpl.
  - now destruct (k =? n).
  - destruct (Z.eqb_spec n k') as [->|Hn]; simpl.
    + rewrite IH. destruct (Z.eqb_spec k k'); reflexivity.
    + rewrite IH. destruct (Z.eqb_spec k k') as [->|Hk]; [|reflexivity].
      destruct (Z.eqb_spec k' n); [congruence | reflexivity].
Qed.

Lemma map_find_erase_all (k : Z) (keys : PacketSet) (m : SentPackets) :
  map_find k (erase_all keys m)
  = if existsb (Z.eqb k) keys then None else map_find k m.
Proof.
  revert m. induction keys as [|n keys IH]; intros m; [reflexivity|].
  change (erase_all (n :: keys) m) with (erase_all keys (map_erase n m)).
  rewrite IH, map_find_erase. simpl.
  destruct (k =? n), (existsb (Z.eqb k) keys); reflexivity.
Qed.

Lemma map_find_In_wf (k : Z) (v : PacketInfo) (m : SentPackets) :
  NoDup (map fst m) -> (In (k, v) m <-> map_find k m = Some v).
Proof.
  induction m as [|[k' v'] m IH]; intros Hnd; simpl.
  - split; [tauto | discriminate].
  - inversion Hnd as [|? ? Hk Hnd']; subst.
    destruct (Z.eqb_spec k k') as [->|Hn].
    + split.
      * intros [E|Hin]; [congruence|].
        exfalso. apply Hk. apply (in_map fst) in Hin. exact Hin.
      * intros E. left. congruence.
    + rewrite <- (IH Hnd'). split; [|tauto].
      intros [E|Hin]; [congruence | assumption].
Qed.

(** ** What an ACK delivery leaves behind *)

Lemma ack_core_alarm (a b : State) :
  without_alarm a = without_alarm b -> ack_core a = ack_core b.
Proof. unfold ack_core. now intros ->. Qed.

Lemma ack_core_registry (a b : State) :
  without_registry a = without_registry b -> ack_core a = ack_core b.
Proof.
  destruct a, b. unfold without_registry, ack_core. cbn. intros H.
  injection H as -> -> -> -> -> -> -> -> -> -> -> -> -> -> -> ->.
  reflexivity.
Qed.

Lemma ack_core_loss_time (lt : Z) (s : State) :
  ack_core (with_loss_time lt s) = ack_core s.
Proof. destruct s; reflexivity. Qed.

Lemma on_ack_received_registry (ack_frame : QUICAckFrame.t) (now : Z)
    (s : State) :
  exists lost,
    _sent_packets (fst (_on_ack_received ack_frame now s))
    = erase_all lost
        (erase_all (_determine_newly_acked_packets ack_frame)
           (_sent_packets s)).
Proof.
  rewrite on_ack_received_fst, set_loss_detection_alarm_registry.
  destruct (detect_lost_packets_registry
              (QUICAckFrame.largest_acknowledged ack_frame) now
              (acked_state ack_frame now s)) as [lost ->].
  destruct (acked_state_facts ack_frame now s) as [-> _].
  now exists lost.
Qed.

Lemma acked_state_core (ack_frame : QUICAckFrame.t) (now : Z) (s : State) :
  ack_core (acked_state ack_frame now s)
  = ack_core
      (reset_counts
         (ack_rtt_sample ack_frame now
            (with_largest_acked_packet
               (QUICAckFrame.largest_acknowledged ack_frame) s))).
Proof.
  unfold acked_state.
  pose proof (determine_newly_acked_largest ack_frame) as Hin.
  remember (ack_rtt_sample ack_frame now
              (with_largest_acked_packet
                 (QUICAckFrame.largest_acknowledged ack_frame) s)) as sA.
  clear HeqsA.
  destruct (_determine_newly_acked_packets ack_frame) as [|n keys];
    [contradiction|].
  rewrite on_packets_acked_forget.
  pose proof (forget_all_frame (n :: keys) sA) as Hframe.
  remember (fold_left forget_packet (n :: keys) sA) as sF. clear HeqsF.
  apply ack_core_registry.
  destruct sF, sA. unfold without_registry, reset_counts in *. cbn in *.
  injection Hframe as -> -> -> -> -> -> -> -> -> -> -> -> -> -> -> ->.
  reflexivity.
Qed.

Lemma on_ack_received_core (ack_frame : QUICAckFrame.t) (now : Z)
    (s : State) :
  ack_core (fst (_on_ack_received ack_frame now s))
  = ack_core
      (reset_counts
         (ack_rtt_sample ack_frame now
            (with_largest_acked_packet
               (QUICAckFrame.largest_acknowledged ack_frame) s))).
Proof.
  rewrite on_ack_received_fst, <- acked_state_core.
  remember (acked_state ack_frame now s) as sB eqn:EB. clear EB.
  rewrite (ack_core_alarm _ _ (set_loss_detection_alarm_frame now _)).
  rewrite detect_lost_packets_fst.
  rewrite (ack_core_registry _ _ (forget_all_frame _ _)).
  apply ack_core_loss_time.
Qed.

Lemma event_handler_registry (event : EventKind) (now queued : Z)
    (s : State) :
  exists keys,
    _sent_packets (fst (event_handler event now queued s))
    = erase_all keys (_sent_packets s).
Proof.
  destruct event; cbn [event_handler fst]; try (now exists []).
  destruct (_loss_detection_alarm_at s <=? now); [|now exists []].
  unfold _on_loss_detection_alarm.
  destruct (negb (_handshake_outstanding s =? 0)).
  - unfold _retransmit_handshake_packets.
    destruct (handshake_prefix (_sent_packets s) [] []) as [keys calls].
    cbn [fst]. rewrite set_loss_detection_alarm_registry.
    exists keys. exact (drop_handshake_packets_registry keys s).
  - destruct (negb (_loss_time s =? 0)).
    + destruct (detect_lost_packets_registry (_largest_acked_packet s) now s)
        as [keys E].
      destruct (_detect_lost_packets (_largest_acked_packet s) now s)
        as [s' calls].
      cbn [fst] in *. rewrite set_loss_detection_alarm_registry.
      now exists keys.
    + exists [].
      destruct (_tlp_count s <? _MAX_TLPS); cbn [fst];
        rewrite set_loss_detection_alarm_registry; [reflexivity|].
      destruct (_rto_count s =? 0); reflexivity.
Qed.

(** X1: after an ACK frame has been processed, no packet number it covers
    is left in the registry. *)
Theorem on_ack_received_erases_covered (ack_frame : QUICAckFrame.t)
    (now : Z) (s : State) (n : Z) :
  In n (_determine_newly_acked_packets ack_frame) ->
  map_find n (_sent_packets (fst (_on_ack_received ack_frame now s))) = None.
Proof.
  intros Hn. destruct (on_ack_received_registry ack_frame now s) as [lost ->].
  apply erase_all_find_absent. now apply erase_all_find_erased.
Qed.

Lemma on_ack_received_erases_covered_witness :
  map_find 2
    (_sent_packets
       (fst (_on_ack_received (QUICAckFrame.mk 3 0 1 []) (ms 10)
               (run three_in_flight (QUICLossDetector false))))) = None.
Proof.
  apply (on_ack_received_erases_covered (QUICAckFrame.mk 3 0 1 []) (ms 10)
           (run three_in_flight (QUICLossDetector false)) 2).
  vm_compute. tauto.
Defined.

(** X2: every ACK frame resets the three back-off counts, whether or not
    it acknowledges a packet that was still outstanding. *)
Theorem on_ack_received_resets_backoff (ack_frame : QUICAckFrame.t)
    (now : Z) (s : State) :
  _handshake_count (fst (_on_ack_received ack_frame now s)) = 0
  /\ _tlp_count (fst (_on_ack_received ack_frame now s)) = 0
  /\ _rto_count (fst (_on_ack_received ack_frame now s)) = 0.
Proof.
  pose proof (on_ack_received_core ack_frame now s) as H.
  remember (fst (_on_ack_received ack_frame now s)) as s1. clear Heqs1.
  remember (ack_rtt_sample ack_frame now
              (with_largest_acked_packet
                 (QUICAckFrame.largest_acknowledged ack_frame) s)) as sA.
  clear HeqsA.
  repeat split.
  - exact (f_equal _handshake_count H).
  - exact (f_equal _tlp_count H).
  - exact (f_equal _rto_count H).
Qed.

(** X3: ACK processing and timer events never add a registry entry and
    never change one: whatever is in the registry afterwards was there
    before, with the same contents. *)
Theorem step_never_adds_entries (s : State) (op : Operation) (k : Z)
    (v : PacketInfo) :
  (forall packet now, op <> OpPacketSent packet now) ->
  map_find k (_sent_packets (step s op)) = Some v ->
  map_find k (_sent_packets s) = Some v.
Proof.
  intros Hop.
  assert (E : exists keys keys',
             _sent_packets (step s op)
             = erase_all keys (erase_all keys' (_sent_packets s))).
  { destruct op as [packet now|ack_frame now|event now queued]; cbn [step].
    - now destruct (Hop packet now).
    - destruct (on_ack_received_registry ack_frame now s) as [lost E].
      now exists lost, (_determine_newly_acked_packets ack_frame).
    - destruct (event_handler_registry event now queued s) as [keys E].
      now exists keys, []. }
  destruct E as (keys & keys' & ->).
  rewrite !map_find_erase_all.
  destruct (existsb (Z.eqb k) keys); [discriminate|].
  destruct (existsb (Z.eqb k) keys'); [discriminate | tauto].
Qed.

Lemma step_never_adds_entries_witness :
  let s := run three_in_flight (QUICLossDetector false) in
  let v := mkPacketInfo 3 0 true false 100 (sample_packet 3 OTHER true) in
  map_find 3 (_sent_packets s) = Some v.
Proof.
  cbv zeta.
  apply (step_never_adds_entries
           (run three_in_flight (QUICLossDetector false))
           (OpAckFrame (sample_ack 2) (ms 10)) 3
           (mkPacketInfo 3 0 true false 100 (sample_packet 3 OTHER true))).
  - intros packet now. discriminate.
  - reflexivity.
Defined.

(** X4: a second delivery of the same ACK frame at the same clock reading
    makes no call on the congestion controller or the transmitter. *)
Theorem on_ack_received_again_is_silent (ack_frame : QUICAckFrame.t)
    (now : Z) (s : State) :
  map_wf (_sent_packets s) = true ->
  snd (_on_ack_received ack_frame now (fst (_on_ack_received ack_frame now s)))
  = [].
Proof.
  intros Hwf. now rewrite (on_ack_received_again ack_frame now s Hwf).
Qed.

Lemma on_ack_received_again_is_silent_witness :
  let s := run three_in_flight (QUICLossDetector false) in
  let ack_frame := sample_ack 3 in
  snd (_on_ack_received ack_frame (ms 5000) s) = [on_packets_lost [1; 2]]
  /\ snd (_on_ack_received ack_frame (ms 5000)
            (fst (_on_ack_received ack_frame (ms 5000) s))) = [].
Proof.
  cbv zeta. split; [reflexivity|].
  apply (on_ack_received_again_is_silent (sample_ack 3) (ms 5000)
           (run three_in_flight (QUICLossDetector false))).
  reflexivity.
Defined.

(** X5: an ACK frame whose largest acknowledged packet is not in the
    registry (never sent, or already removed) takes no RTT sample:
    [_latest_rtt], [_smoothed_rtt] and [_rttvar] keep their values. *)
Theorem on_ack_received_without_sample (ack_frame : QUICAckFrame.t)
    (now : Z) (s : State) :
  map_find (QUICAckFrame.largest_acknowledged ack_frame) (_sent_packets s)
  = None ->
  _latest_rtt (fst (_on_ack_received ack_frame now s)) = _latest_rtt s
  /\ _smoothed_rtt (fst (_on_ack_received ack_frame now s)) = _smoothed_rtt s
  /\ _rttvar (fst (_on_ack_received ack_frame now s)) = _rttvar s.
Proof.
  intros Hnone.
  pose proof (on_ack_received_core ack_frame now s) as H.
  unfold ack_rtt_sample in H.
  change (_sent_packets
            (with_largest_acked_packet
               (QUICAckFrame.largest_acknowledged ack_frame) s))
    with (_sent_packets s) in H.
  rewrite Hnone in H.
  remember (fst (_on_ack_received ack_frame now s)) as s1. clear Heqs1.
  repeat split.
  - exact (f_equal _latest_rtt H).
  - exact (f_equal _smoothed_rtt H).
  - exact (f_equal _rttvar H).
Qed.

Lemma on_ack_received_without_sample_witness :
  let s := run one_sample_run (QUICLossDetector false) in
  _latest_rtt (fst (_on_ack_received (sample_ack 1) (ms 500) s)) = ms 80
  /\ _smoothed_rtt (fst (_on_ack_received (sample_ack 1) (ms 500) s)) = ms 80
  /\ _rttvar (fst (_on_ack_received (sample_ack 1) (ms 500) s)) = ms 40.
Proof.
  cbv zeta.
  apply (on_ack_received_without_sample (sample_ack 1) (ms 500)
           (run one_sample_run (QUICLossDetector false))).
  reflexivity.
Defined.

(** X6: when the largest acknowledged packet is in the registry, the RTT
    sample is the time since it was sent, reduced by the peer's ACK delay
    only if the delay is strictly smaller; a delay that is not smaller is
    ignored, so the sample of a packet sent in the past is never negative. *)
Theorem on_ack_received_sample (ack_frame : QUICAckFrame.t) (now : Z)
    (s : State) (pi : PacketInfo) :
  map_find (QUICAckFrame.largest_acknowledged ack_frame) (_sent_packets s)
  = Some pi ->
  let delay := HRTIME_MSECONDS (QUICAckFrame.ack_delay ack_frame) in
  let sample := _latest_rtt (fst (_on_ack_received ack_frame now s)) in
  sample = (if now - time pi >? delay then now - time pi - delay
            else now - time pi)
  /\ (time pi <= now -> 0 <= QUICAckFrame.ack_delay ack_frame -> 0 <= sample).
Proof.
  intros Hsome. cbv zeta.
  pose proof (on_ack_received_core ack_frame now s) as H.
  unfold ack_rtt_sample in H.
  change (_sent_packets
            (with_largest_acked_packet
               (QUICAckFrame.largest_acknowledged ack_frame) s))
    with (_sent_packets s) in H.
  rewrite Hsome in H. cbv zeta in H.
  remember (fst (_on_ack_received ack_frame now s)) as s1. clear Heqs1.
  apply (f_equal _latest_rtt) in H.
  change (_latest_rtt (ack_core s1)) with (_latest_rtt s1) in H.
  rewrite H. clear H. unfold _update_rtt, HRTIME_MSECONDS.
  cbn [_latest_rtt with_latest_rtt].
  destruct (now - time pi >? QUICAckFrame.ack_delay ack_frame * 1000000)
    eqn:Hgt;
    match goal with
    | |- context [if ?b then _ else _] => destruct b
    end; cbn; (split; [reflexivity|]); intros; lia.
Qed.

Lemma on_ack_received_sample_witness :
  let s := run three_in_flight (QUICLossDetector false) in
  let ack_frame := QUICAckFrame.mk 3 20 0 [] in
  _latest_rtt (fst (_on_ack_received ack_frame (ms 10) s)) = ms 10.
Proof.
  cbv zeta.
  apply (proj1 (on_ack_received_sample (QUICAckFrame.mk 3 20 0 []) (ms 10)
                  (run three_in_flight (QUICLossDetector false))
                  (mkPacketInfo 3 0 true false 100
                     (sample_packet 3 OTHER true))
                  eq_refl)).
Defined.

(** X7: ACK processing keeps the two outstanding counters equal to the
    numbers of handshake and of retransmittable registry entries. *)
Theorem on_ack_received_keeps_counters (ack_frame : QUICAckFrame.t)
    (now : Z) (s : State) :
  map_wf (_sent_packets s) = true ->
  _handshake_outstanding s < 2 ^ 32 ->
  _retransmittable_outstanding s < 2 ^ 32 ->
  counters_consistent s ->
  counters_consistent (fst (_on_ack_received ack_frame now s)).
Proof.
  intros Hwf Hh Hr Hc.
  apply (on_ack_received_sound ack_frame now s).
  repeat split; try assumption; try apply Hc. now apply map_wf_NoDup.
Qed.

Lemma on_ack_received_keeps_counters_witness :
  counters_consistent
    (fst (_on_ack_received (sample_ack 3) (ms 10)
            (run three_in_flight (QUICLossDetector false)))).
Proof.
  apply (on_ack_received_keeps_counters (sample_ack 3) (ms 10)
           (run three_in_flight (QUICLossDetector false))).
  - reflexivity.
  - reflexivity.
  - reflexivity.
  - split; reflexivity.
Defined.

(** ** Which packets loss detection removes *)

Lemma detect_lost_loop_marks (largest now delay threshold : Z)
    (m : SentPackets) :
  map_wf m = true ->
  forall (lt : Z) (acc : PacketSet) (k : Z),
    In k (snd (detect_lost_loop largest now delay threshold m lt acc))
    <-> In k acc
        \/ exists v, In (k, v) m /\ k < largest
                     /\ lost_criterion largest now delay threshold v = true.
Proof.
  induction m as [|[k0 v0] m IH]; intros Hwf lt acc k.
  - simpl. split; [tauto | intros [H | (v & [] & _)]; assumption].
  - assert (Hm : map_wf m = true) by now apply (map_wf_from_wf k0).
    destruct (map_wf_from_keys k0 m Hwf) as [_ Hgt].
    specialize (IH Hm).
    assert (Hlater : forall v, In (k, v) m -> k0 < k).
    { intros v Hin. apply Hgt. apply (in_map fst) in Hin. exact Hin. }
    cbn [detect_lost_loop]. unfold lost_criterion in *.
    destruct (k0 >=? largest) eqn:Hge.
    + apply Z.geb_le in Hge. cbn [snd]. split; [tauto|].
      intros [H | (v & [E | Hin] & Hlt & _)]; [assumption | |].
      * injection E as -> ->. lia.
      * apply Hlater in Hin. lia.
    + assert (Hlt0 : k0 < largest)
        by (destruct (Z.geb_spec k0 largest); [discriminate | lia]).
      destruct (now - time v0 >? delay) eqn:Htime;
        [|destruct (wrap64 (largest - packet_number v0) >? threshold)
            eqn:Hdelta];
        [rewrite IH; clear IH; rewrite set_insert_In
        |rewrite IH; clear IH; rewrite set_insert_In
        |].
      * split.
        -- intros [[-> | H] | (v & Hin & H)]; [right | tauto |].
           ++ exists v0. rewrite Htime. simpl. tauto.
           ++ right. exists v. simpl. tauto.
        -- intros [H | (v & [E | Hin] & H)]; [tauto | |].
           ++ injection E as -> ->. tauto.
           ++ right. now exists v.
      * split.
        -- intros [[-> | H] | (v & Hin & H)]; [right | tauto |].
           ++ exists v0. rewrite Htime, Hdelta. simpl. tauto.
           ++ right. exists v. simpl. tauto.
        -- intros [H | (v & [E | Hin] & H)]; [tauto | |].
           ++ injection E as -> ->. tauto.
           ++ right. now exists v.
      * destruct ((lt =? 0) && uint32_ne_INFINITY delay); rewrite IH;
          clear IH.
        -- split.
           ++ intros [H | (v & Hin & H)]; [tauto|].
              right. exists v. simpl. tauto.
           ++ intros [H | (v & [E | Hin] & H)]; [tauto | |].
              ** injection E as -> ->. rewrite Htime, Hdelta in H.
                 simpl in H. destruct H as [_ H]. discriminate.
              ** right. now exists v.
        -- split.
           ++ intros [H | (v & Hin & H)]; [tauto|].
              right. exists v. simpl. tauto.
           ++ intros [H | (v & [E | Hin] & H)]; [tauto | |].
              ** injection E as -> ->. rewrite Htime, Hdelta in H.
                 simpl in H. destruct H as [_ H]. discriminate.
              ** right. now exists v.
Qed.

Lemma detect_lost_loop_marks_found (largest now : Z) (s : State) (k : Z)
    (v : PacketInfo) :
  map_wf (_sent_packets s) = true ->
  map_find k (_sent_packets s) = Some v ->
  existsb (Z.eqb k)
    (snd (detect_lost_loop largest now (delay_until_lost largest s)
            (_reordering_threshold s) (_sent_packets s) 0 []))
  = (k <? largest)
    && lost_criterion largest now (delay_until_lost largest s)
         (_reordering_threshold s) v.
Proof.
  intros Hwf Hfind.
  pose proof (map_wf_NoDup _ Hwf) as Hnd.
  pose proof (detect_lost_loop_marks largest now (delay_until_lost largest s)
                (_reordering_threshold s) (_sent_packets s) Hwf 0 [] k) as H.
  apply eq_true_iff_eq. rewrite existsb_eqb_In, H, andb_true_iff, Z.ltb_lt.
  split.
  - intros [[] | (v' & Hin & Hlt & Hc)].
    apply (map_find_In_wf k v' _ Hnd) in Hin.
    assert (v' = v) by congruence. subst. tauto.
  - intros [Hlt Hc]. right. exists v.
    split; [now apply (map_find_In_wf k v _ Hnd) | tauto].
Qed.

Lemma detect_lost_packets_lookup (largest now : Z) (s : State) (k : Z) :
  map_find k (_sent_packets (fst (_detect_lost_packets largest now s)))
  = if existsb (Z.eqb k)
         (snd (detect_lost_loop largest now (delay_until_lost largest s)
                 (_reordering_threshold s) (_sent_packets s) 0 []))
    then None
    else map_find k (_sent_packets s).
Proof.
  rewrite detect_lost_packets_fst.
  rewrite (forget_all_registry _ (with_loss_time _ s)).
  change (_sent_packets (with_loss_time _ s)) with (_sent_packets s).
  apply map_find_erase_all.
Qed.

(** X8: in one run of loss detection a registry entry is removed exactly
    when its number is below the largest acknowledged one and either its age
    exceeds [delay_until_lost] or its distance from the largest acknowledged
    number exceeds the reordering threshold; every other entry is kept as it
    is. *)
Theorem detect_lost_packets_outcome (largest now : Z) (s : State) (k : Z)
    (v : PacketInfo) :
  map_wf (_sent_packets s) = true ->
  map_find k (_sent_packets s) = Some v ->
  map_find k (_sent_packets (fst (_detect_lost_packets largest now s)))
  = if (k <? largest)
       && lost_criterion largest now (delay_until_lost largest s)
            (_reordering_threshold s) v
    then None
    else Some v.
Proof.
  intros Hwf Hfind.
  rewrite detect_lost_packets_lookup.
  rewrite (detect_lost_loop_marks_found largest now s k v Hwf Hfind).
  now rewrite Hfind.
Qed.

Lemma detect_lost_packets_outcome_witness :
  let s := run three_in_flight (QUICLossDetector false) in
  map_find 1 (_sent_packets (fst (_detect_lost_packets 5 (ms 10) s))) = None
  /\ map_find 2 (_sent_packets (fst (_detect_lost_packets 5 (ms 10) s)))
     = Some (mkPacketInfo 2 0 true false 100 (sample_packet 2 OTHER true)).
Proof.
  cbv zeta. split.
  - rewrite (detect_lost_packets_outcome 5 (ms 10)
               (run three_in_flight (QUICLossDetector false)) 1
               (mkPacketInfo 1 0 true false 100 (sample_packet 1 OTHER true)));
      reflexivity.
  - rewrite (detect_lost_packets_outcome 5 (ms 10)
               (run three_in_flight (QUICLossDetector false)) 2
               (mkPacketInfo 2 0 true false 100 (sample_packet 2 OTHER true)));
      reflexivity.
Defined.

(** X9: loss detection calls the congestion controller at most once, never
    with an empty set, and with exactly the numbers of the entries it is
    about to remove; when it makes no call, the registry and both counters
    are left as they were. *)
Theorem detect_lost_packets_report (largest now : Z) (s : State) :
  map_wf (_sent_packets s) = true ->
  (snd (_detect_lost_packets largest now s) = []
   /\ _sent_packets (fst (_detect_lost_packets largest now s))
      = _sent_packets s
   /\ _handshake_outstanding (fst (_detect_lost_packets largest now s))
      = _handshake_outstanding s
   /\ _retransmittable_outstanding (fst (_detect_lost_packets largest now s))
      = _retransmittable_outstanding s)
  \/ (exists lost_packets,
         lost_packets <> []
         /\ snd (_detect_lost_packets largest now s)
            = [on_packets_lost lost_packets]
         /\ forall k,
              In k lost_packets <->
              exists v,
                map_find k (_sent_packets s) = Some v
                /\ map_find k
                     (_sent_packets (fst (_detect_lost_packets largest now s)))
                   = None).
Proof.
  intros Hwf.
  assert (Hout : forall k v,
             map_find k (_sent_packets s) = Some v ->
             map_find k (_sent_packets (fst (_detect_lost_packets largest now s)))
             = if existsb (Z.eqb k)
                    (snd (detect_lost_loop largest now
                            (delay_until_lost largest s)
                            (_reordering_threshold s) (_sent_packets s) 0 []))
               then None else Some v).
  { intros k v Hfind. rewrite detect_lost_packets_lookup. now rewrite Hfind. }
  pose proof (detect_lost_loop_marks largest now (delay_until_lost largest s)
                (_reordering_threshold s) (_sent_packets s) Hwf 0 []) as Hmarks.
  pose proof (map_wf_NoDup _ Hwf) as Hnd.
  unfold _detect_lost_packets in *.
  destruct (detect_lost_loop largest now (delay_until_lost largest s)
              (_reordering_threshold s) (_sent_packets s) 0 [])
    as [lt [|n lost]]; cbn [fst snd] in *.
  - left. repeat split; reflexivity.
  - right. exists (n :: lost). split; [discriminate|]. split; [reflexivity|].
    intros k. split.
    + intros Hin. destruct (proj1 (Hmarks k) Hin) as [[] | (v & Hv & _)].
      apply (map_find_In_wf k v _ Hnd) in Hv. exists v. split; [assumption|].
      rewrite (Hout k v Hv).
      apply existsb_eqb_In in Hin. now rewrite Hin.
    + intros (v & Hv & Hgone). rewrite (Hout k v Hv) in Hgone.
      apply existsb_eqb_In.
      destruct (existsb (Z.eqb k) (n :: lost)); [reflexivity | discriminate].
Qed.

Lemma detect_lost_packets_report_witness :
  let s := run three_in_flight (QUICLossDetector false) in
  snd (_detect_lost_packets 5 (ms 10) s) = [on_packets_lost [1]]
  /\ ((snd (_detect_lost_packets 5 (ms 10) s) = []
       /\ _sent_packets (fst (_detect_lost_packets 5 (ms 10) s))
          = _sent_packets s
       /\ _handshake_outstanding (fst (_detect_lost_packets 5 (ms 10) s))
          = _handshake_outstanding s
       /\ _retransmittable_outstanding (fst (_detect_lost_packets 5 (ms 10) s))
          = _retransmittable_outstanding s)
      \/ (exists lost_packets,
             lost_packets <> []
             /\ snd (_detect_lost_packets 5 (ms 10) s)
                = [on_packets_lost lost_packets]
             /\ forall k,
                  In k lost_packets <->
                  exists v,
                    map_find k (_sent_packets s) = Some v
                    /\ map_find k
                         (_sent_packets
                            (fst (_detect_lost_packets 5 (ms 10) s)))
                       = None)).
Proof.
  cbv zeta. split; [reflexivity|].
  apply (detect_lost_packets_report 5 (ms 10)
           (run three_in_flight (QUICLossDetector false))).
  reflexivity.
Defined.

(** ** The handshake retransmission action *)

Lemma set_insert_last (k : Z) (acc : PacketSet) :
  (forall j, In j acc -> j < k) -> set_insert k acc = acc ++ [k].
Proof.
  induction acc as [|y acc IH]; intros H; simpl; [reflexivity|].
  assert (Hy : y < k) by (apply H; simpl; auto).
  destruct (Z.ltb_spec k y); [lia|].
  destruct (Z.eqb_spec k y); [lia|].
  f_equal. apply IH. intros j Hj. apply H. simpl. auto.
Qed.

Lemma handshake_prefix_split (m : SentPackets) :
  forall (lo : Z) (acc : PacketSet) (calls : list Effect),
    map_wf_from lo m = true ->
    (forall j, In j acc -> j <= lo) ->
    exists pre rest,
      m = pre ++ rest
      /\ Forall (fun e => handshake (snd e) = true) pre
      /\ match rest with
         | [] => True
         | e :: _ => handshake (snd e) = false
         end
      /\ handshake_prefix m acc calls
         = (acc ++ map fst pre,
            calls ++ map (fun e => retransmit_packet (packet (snd e))) pre).
Proof.
  induction m as [|[k v] m IH]; intros lo acc calls Hwf Hacc.
  - exists [], []. simpl. rewrite !app_nil_r. auto.
  - simpl in Hwf. apply andb_true_iff in Hwf. destruct Hwf as [Hlo Hm].
    apply Z.ltb_lt in Hlo. cbn [handshake_prefix].
    destruct (handshake v) eqn:Hh; cbn [negb].
    + rewrite set_insert_last
        by (intros j Hj; apply Hacc in Hj; lia).
      destruct (IH k (acc ++ [k]) (calls ++ [retransmit_packet (packet v)]) Hm)
        as (pre & rest & -> & Hall & Hrest & ->).
      { intros j Hj. apply in_app_or in Hj. destruct Hj as [Hj | [<- | []]].
        - apply Hacc in Hj. lia.
        - lia. }
      exists ((k, v) :: pre), rest. cbn [map fst snd app].
      rewrite <- !app_assoc. cbn [app].
      repeat split; auto.
    + exists [], ((k, v) :: m). simpl. rewrite !app_nil_r. auto.
Qed.

Lemma erase_all_prefix (pre rest : SentPackets) :
  NoDup (map fst (pre ++ rest)) ->
  erase_all (map fst pre) (pre ++ rest) = rest.
Proof.
  induction pre as [|[k v] pre IH]; intros Hnd; [reflexivity|].
  cbn [map fst app] in *. inversion Hnd as [|? ? Hk Hnd']; subst.
  change (erase_all (k :: map fst pre) ((k, v) :: pre ++ rest))
    with (erase_all (map fst pre) (map_erase k ((k, v) :: pre ++ rest))).
  cbn [map_erase]. rewrite Z.eqb_refl.
  rewrite (map_erase_absent k (pre ++ rest)) by now apply map_find_notin.
  now apply IH.
Qed.

Lemma drop_handshake_packets_frame (keys : PacketSet) (s : State) :
  without_registry (fold_left drop_handshake_packet keys s)
  = without_registry s.
Proof.
  revert s. induction keys as [|n keys IH]; intros s; [reflexivity|].
  rewrite fold_left_step, IH. reflexivity.
Qed.

Lemma wrap32_pred (z n : Z) : wrap32 (wrap32 (z - 1) - n) = wrap32 (z - (1 + n)).
Proof.
  unfold wrap32. rewrite Zminus_mod_idemp_l. f_equal. lia.
Qed.

Lemma wrap32_range (z : Z) : 0 <= wrap32 z < 2 ^ 32.
Proof. unfold wrap32. apply Z.mod_pos_bound. lia. Qed.

Lemma drop_handshake_packets_counters (keys : PacketSet) (s : State) :
  0 <= _handshake_outstanding s < 2 ^ 32 ->
  0 <= _retransmittable_outstanding s < 2 ^ 32 ->
  _handshake_outstanding (fold_left drop_handshake_packet keys s)
  = wrap32 (_handshake_outstanding s - Z.of_nat (List.length keys))
  /\ _retransmittable_outstanding (fold_left drop_handshake_packet keys s)
     = wrap32 (_retransmittable_outstanding s - Z.of_nat (List.length keys)).
Proof.
  revert s. induction keys as [|n keys IH]; intros s Hh Hr.
  - cbn [fold_left List.length Z.of_nat]. unfold wrap32.
    rewrite !Z.sub_0_r, !Z.mod_small by assumption. tauto.
  - rewrite fold_left_step.
    destruct (IH (drop_handshake_packet s n)) as [Eh Er];
      try (cbn; apply wrap32_range).
    rewrite Eh, Er. cbn [_handshake_outstanding _retransmittable_outstanding
                           drop_handshake_packet
                           with_retransmittable_outstanding
                           with_handshake_outstanding with_sent_packets].
    rewrite !wrap32_pred.
    replace (Z.of_nat (List.length (n :: keys)))
      with (1 + Z.of_nat (List.length keys))
      by (cbn [List.length]; lia).
    tauto.
Qed.

Lemma retransmit_handshake_packets_shape (s : State) :
  map_wf (_sent_packets s) = true ->
  exists pre rest,
    _sent_packets s = pre ++ rest
    /\ Forall (fun e => handshake (snd e) = true) pre
    /\ match rest with
       | [] => True
       | e :: _ => handshake (snd e) = false
       end
    /\ _retransmit_handshake_packets s
       = (fold_left drop_handshake_packet (map fst pre) s,
          map (fun e => retransmit_packet (packet (snd e))) pre)
    /\ _sent_packets (fold_left drop_handshake_packet (map fst pre) s) = rest.
Proof.
  intros Hwf. pose proof (map_wf_NoDup _ Hwf) as Hnd.
  assert (Hlo : exists lo, map_wf_from lo (_sent_packets s) = true).
  { destruct (_sent_packets s) as [|[k v] m]; [now exists 0|].
    exists (k - 1). simpl in *. rewrite Hwf, andb_true_r.
    apply Z.ltb_lt. lia. }
  destruct Hlo as [lo Hlo].
  destruct (handshake_prefix_split (_sent_packets s) lo [] [] Hlo)
    as (pre & rest & E & Hall & Hrest & Hp); [intros j []|].
  exists pre, rest. unfold _retransmit_handshake_packets. rewrite Hp.
  cbn [app]. repeat split; auto.
  rewrite drop_handshake_packets_registry, E. apply erase_all_prefix.
  now rewrite <- E.
Qed.

(** X10: handshake retransmission retransmits and removes exactly the run
    of handshake packets at the low end of the registry, in ascending
    order, and subtracts the number of removed packets from both
    outstanding counters (modulo 2^32), whatever the packets' flags. *)
Theorem retransmit_handshake_packets_prefix (s : State) :
  map_wf (_sent_packets s) = true ->
  0 <= _handshake_outstanding s < 2 ^ 32 ->
  0 <= _retransmittable_outstanding s < 2 ^ 32 ->
  exists pre rest,
    _sent_packets s = pre ++ rest
    /\ Forall (fun e => handshake (snd e) = true) pre
    /\ match rest with
       | [] => True
       | e :: _ => handshake (snd e) = false
       end
    /\ snd (_retransmit_handshake_packets s)
       = map (fun e => retransmit_packet (packet (snd e))) pre
    /\ _sent_packets (fst (_retransmit_handshake_packets s)) = rest
    /\ _handshake_outstanding (fst (_retransmit_handshake_packets s))
       = wrap32 (_handshake_outstanding s - Z.of_nat (List.length pre))
    /\ _retransmittable_outstanding (fst (_retransmit_handshake_packets s))
       = wrap32 (_retransmittable_outstanding s - Z.of_nat (List.length pre)).
Proof.
  intros Hwf Hh Hr.
  destruct (retransmit_handshake_packets_shape s Hwf)
    as (pre & rest & E & Hall & Hrest & -> & Hreg).
  exists pre, rest. cbn [fst snd].
  destruct (drop_handshake_packets_counters (map fst pre) s Hh Hr) as [Eh Er].
  rewrite length_map in Eh, Er. repeat split; assumption.
Qed.

Lemma retransmit_handshake_packets_prefix_witness :
  let s :=
    run [OpPacketSent (sample_packet 1 INITIAL true) 0;
         OpPacketSent (sample_packet 2 HANDSHAKE true) 0;
         OpPacketSent (sample_packet 3 OTHER true) 0;
         OpPacketSent (sample_packet 4 HANDSHAKE true) 0]
      (QUICLossDetector false) in
  map fst (_sent_packets (fst (_retransmit_handshake_packets s))) = [3; 4]
  /\ exists pre rest,
       _sent_packets s = pre ++ rest
       /\ Forall (fun e => handshake (snd e) = true) pre
       /\ match rest with
          | [] => True
          | e :: _ => handshake (snd e) = false
          end
       /\ snd (_retransmit_handshake_packets s)
          = map (fun e => retransmit_packet (packet (snd e))) pre
       /\ _sent_packets (fst (_retransmit_handshake_packets s)) = rest
       /\ _handshake_outstanding (fst (_retransmit_handshake_packets s))
          = wrap32 (_handshake_outstanding s - Z.of_nat (List.length pre))
       /\ _retransmittable_outstanding (fst (_retransmit_handshake_packets s))
          = wrap32
              (_retransmittable_outstanding s - Z.of_nat (List.length pre)).
Proof.
  cbv zeta. split; [reflexivity|].
  apply (retransmit_handshake_packets_prefix
           (run [OpPacketSent (sample_packet 1 INITIAL true) 0;
                 OpPacketSent (sample_packet 2 HANDSHAKE true) 0;
                 OpPacketSent (sample_packet 3 OTHER true) 0;
                 OpPacketSent (sample_packet 4 HANDSHAKE true) 0]
              (QUICLossDetector false))).
  - reflexivity.
  - vm_compute. split; [discriminate | reflexivity].
  - vm_compute. split; [discriminate | reflexivity].
Defined.

Lemma count_app (f : PacketInfo -> bool) (pre rest : SentPackets) :
  Z.of_nat (List.length (filter (fun e => f (snd e)) (pre ++ rest)))
  = Z.of_nat (List.length (filter (fun e => f (snd e)) pre))
    + Z.of_nat (List.length (filter (fun e => f (snd e)) rest)).
Proof. rewrite filter_app, length_app. lia. Qed.

Lemma count_all (f : PacketInfo -> bool) (pre : SentPackets) :
  Forall (fun e => f (snd e) = true) pre ->
  List.length (filter (fun e => f (snd e)) pre) = List.length pre.
Proof.
  induction 1 as [|e pre He Hall IH]; [reflexivity|].
  cbn [filter]. rewrite He. cbn [List.length]. now rewrite IH.
Qed.

(** X11: when every handshake packet in the registry is retransmittable,
    handshake retransmission keeps both counters equal to the registry
    cardinalities. *)
Theorem retransmit_handshake_packets_keeps_counters (s : State) :
  map_wf (_sent_packets s) = true ->
  _handshake_outstanding s < 2 ^ 32 ->
  _retransmittable_outstanding s < 2 ^ 32 ->
  counters_consistent s ->
  (forall k v, In (k, v) (_sent_packets s) ->
               handshake v = true -> retransmittable v = true) ->
  counters_consistent (fst (_retransmit_handshake_packets s)).
Proof.
  intros Hwf Hh Hr [Ch Cr] Hflags.
  destruct (retransmit_handshake_packets_shape s Hwf)
    as (pre & rest & E & Hall & Hrest & -> & Hreg).
  cbn [fst]. unfold counters_consistent, count_handshake,
    count_retransmittable in *.
  rewrite Hreg. rewrite E in Ch, Cr. rewrite count_app in Ch, Cr.
  assert (Hall' : Forall (fun e => retransmittable (snd e) = true) pre).
  { apply Forall_forall. intros [k v] Hin. cbn [snd].
    apply (Hflags k v).
    - rewrite E. apply in_or_app. now left.
    - exact (proj1 (Forall_forall _ pre) Hall (k, v) Hin). }
  rewrite (count_all handshake pre Hall) in Ch.
  rewrite (count_all retransmittable pre Hall') in Cr.
  destruct (drop_handshake_packets_counters (map fst pre) s) as [Eh Er];
    [lia | lia |].
  rewrite Eh, Er, length_map. unfold wrap32.
  rewrite !Z.mod_small by lia. lia.
Qed.

Lemma retransmit_handshake_packets_keeps_counters_witness :
  counters_consistent
    (fst (_retransmit_handshake_packets
            (run [OpPacketSent (sample_packet 1 INITIAL true) 0;
                  OpPacketSent (sample_packet 2 OTHER false) 0]
               (QUICLossDetector false)))).
Proof.
  apply (retransmit_handshake_packets_keeps_counters
           (run [OpPacketSent (sample_packet 1 INITIAL true) 0;
                 OpPacketSent (sample_packet 2 OTHER false) 0]
              (QUICLossDetector false))).
  - reflexivity.
  - reflexivity.
  - reflexivity.
  - split; reflexivity.
  - intros k v Hin Hh.
    assert (Hall : forallb
                     (fun e => implb (handshake (snd e))
                                 (retransmittable (snd e)))
                     (_sent_packets
                        (run [OpPacketSent (sample_packet 1 INITIAL true) 0;
                              OpPacketSent (sample_packet 2 OTHER false) 0]
                           (QUICLossDetector false))) = true)
      by (vm_compute; reflexivity).
    rewrite forallb_forall in Hall. specialize (Hall _ Hin).
    cbn [snd] in Hall. rewrite Hh in Hall. exact Hall.
Defined.

(** ** Sending a packet *)

Lemma map_find_insert_other (k n : Z) (v : PacketInfo) (m : SentPackets) :
  k <> n -> map_find k (map_insert n v m) = map_find k m.
Proof.
  intros Hk. induction m as [|[k' v'] m IH]; simpl.
  - destruct (Z.eqb_spec k n); [contradiction | reflexivity].
  - destruct (n <? k'); simpl.
    + destruct (Z.eqb_spec k n); [contradiction | reflexivity].
    + destruct (n =? k'); simpl; [reflexivity|].
      destruct (k =? k'); [reflexivity | assumption].
Qed.

Lemma map_find_insert_fresh (n : Z) (v : PacketInfo) (m : SentPackets) :
  map_find n m = None -> map_find n (map_insert n v m) = Some v.
Proof.
  induction m as [|[k' v'] m IH]; simpl.
  - now rewrite Z.eqb_refl.
  - destruct (Z.eqb_spec n k') as [->|Hn]; [discriminate|]. intros H.
    destruct (n <? k'); simpl.
    + now rewrite Z.eqb_refl.
    + destruct (Z.eqb_spec n k'); [contradiction | auto].
Qed.

Lemma map_find_In_key (k : Z) (v : PacketInfo) (m : SentPackets) :
  map_find k m = Some v -> In k (map fst m).
Proof.
  induction m as [|[k' v'] m IH]; simpl; [discriminate|].
  destruct (Z.eqb_spec k k'); [auto | auto].
Qed.

Lemma map_insert_present (n : Z) (v v0 : PacketInfo) (m : SentPackets) :
  map_wf m = true -> map_find n m = Some v0 -> map_insert n v m = m.
Proof.
  induction m as [|[k' v'] m IH]; intros Hwf Hfind; [discriminate|].
  destruct (map_wf_from_keys k' m Hwf) as [_ Hgt].
  simpl in *. destruct (Z.eqb_spec n k') as [->|Hn].
  - now rewrite Z.ltb_irrefl.
  - assert (Hin : k' < n) by (apply Hgt; now apply map_find_In_key in Hfind).
    destruct (Z.ltb_spec n k'); [lia|].
    f_equal. apply IH; [now apply (map_wf_from_wf k') | assumption].
Qed.

Lemma count_insert_fresh (f : PacketInfo -> bool) (n : Z) (v : PacketInfo)
    (m : SentPackets) :
  map_find n m = None ->
  Z.of_nat (List.length (filter (fun e => f (snd e)) (map_insert n v m)))
  = Z.of_nat (List.length (filter (fun e => f (snd e)) m))
    + (if f v then 1 else 0).
Proof.
  induction m as [|[k' v'] m IH]; simpl.
  - intros _. destruct (f v); simpl; lia.
  - destruct (Z.eqb_spec n k') as [->|Hn]; [discriminate|]. intros H.
    destruct (n <? k'); cbn [filter snd].
    + destruct (f v), (f v'); cbn [List.length]; lia.
    + specialize (IH H). destruct (f v'); cbn [List.length]; lia.
Qed.

Lemma set_loss_detection_alarm_counters (now : Z) (s : State) :
  _handshake_outstanding (_set_loss_detection_alarm now s)
  = _handshake_outstanding s
  /\ _retransmittable_outstanding (_set_loss_detection_alarm now s)
     = _retransmittable_outstanding s.
Proof.
  split.
  - exact (f_equal _handshake_outstanding
             (set_loss_detection_alarm_frame now s)).
  - exact (f_equal _retransmittable_outstanding
             (set_loss_detection_alarm_frame now s)).
Qed.

Lemma on_packet_sent_fields (packet : QUICPacket.t) (now : Z) (s : State) :
  _sent_packets (on_packet_sent packet now s)
  = map_insert (QUICPacket.packet_number packet)
      (mkPacketInfo (QUICPacket.packet_number packet) now
         (QUICPacket.is_retransmittable packet)
         (is_handshake_type (QUICPacket.type packet))
         (QUICPacket.size packet) packet)
      (_sent_packets s)
  /\ _handshake_outstanding (on_packet_sent packet now s)
     = (if is_handshake_type (QUICPacket.type packet)
        then wrap32 (_handshake_outstanding s + 1)
        else _handshake_outstanding s)
  /\ _retransmittable_outstanding (on_packet_sent packet now s)
     = (if QUICPacket.is_retransmittable packet
        then wrap32 (_retransmittable_outstanding s + 1)
        else _retransmittable_outstanding s).
Proof.
  unfold on_packet_sent. cbv zeta.
  change (match QUICPacket.type packet with
          | INITIAL | HANDSHAKE => true
          | _ => false
          end) with (is_handshake_type (QUICPacket.type packet)).
  rewrite on_packet_sent_registry. unfold _on_packet_sent. cbv zeta.
  destruct (QUICPacket.is_retransmittable packet),
    (is_handshake_type (QUICPacket.type packet)),
    (_connection_id s =? 0);
    repeat split;
    try (rewrite (proj1 (set_loss_detection_alarm_counters now _)));
    try (rewrite (proj2 (set_loss_detection_alarm_counters now _)));
    reflexivity.
Qed.

(** X12: sending a packet whose number is not yet in the registry stores
    it under that number with the send time and the packet's flags, leaves
    every other entry alone and keeps both counters equal to the registry
    cardinalities. *)
Theorem on_packet_sent_fresh (packet : QUICPacket.t) (now : Z) (s : State) :
  map_find (QUICPacket.packet_number packet) (_sent_packets s) = None ->
  _handshake_outstanding s < 2 ^ 32 - 1 ->
  _retransmittable_outstanding s < 2 ^ 32 - 1 ->
  counters_consistent s ->
  map_find (QUICPacket.packet_number packet)
    (_sent_packets (on_packet_sent packet now s))
  = Some (mkPacketInfo (QUICPacket.packet_number packet) now
            (QUICPacket.is_retransmittable packet)
            (is_handshake_type (QUICPacket.type packet))
            (QUICPacket.size packet) packet)
  /\ (forall k, k <> QUICPacket.packet_number packet ->
                map_find k (_sent_packets (on_packet_sent packet now s))
                = map_find k (_sent_packets s))
  /\ counters_consistent (on_packet_sent packet now s).
Proof.
  intros Hfresh Hh Hr [Ch Cr].
  destruct (on_packet_sent_fields packet now s) as (Em & Eh & Er).
  unfold counters_consistent, count_handshake, count_retransmittable in *.
  rewrite Em, Eh, Er. split; [|split; [|split]].
  - now apply map_find_insert_fresh.
  - intros k Hk. now apply map_find_insert_other.
  - rewrite (count_insert_fresh handshake _ _ _ Hfresh). cbn [handshake].
    destruct (is_handshake_type (QUICPacket.type packet)); [|lia].
    unfold wrap32. rewrite Z.mod_small; lia.
  - rewrite (count_insert_fresh retransmittable _ _ _ Hfresh).
    cbn [retransmittable].
    destruct (QUICPacket.is_retransmittable packet); [|lia].
    unfold wrap32. rewrite Z.mod_small; lia.
Qed.

Lemma on_packet_sent_fresh_witness :
  let s := run three_in_flight (QUICLossDetector false) in
  let packet := sample_packet 4 HANDSHAKE true in
  map_find 4 (_sent_packets (on_packet_sent packet (ms 7) s))
  = Some (mkPacketInfo 4 (ms 7) true true 100 packet)
  /\ counters_consistent (on_packet_sent packet (ms 7) s).
Proof.
  cbv zeta.
  destruct (on_packet_sent_fresh (sample_packet 4 HANDSHAKE true) (ms 7)
              (run three_in_flight (QUICLossDetector false)))
    as (Hfind & _ & Hc).
  - reflexivity.
  - reflexivity.
  - reflexivity.
  - split; reflexivity.
  - split; [exact Hfind | exact Hc].
Defined.

(** X13: sending a packet whose number is already in the registry leaves
    the registry as it is (the stored entry wins), yet still adds one to
    each outstanding counter the new packet's flags select. *)
Theorem on_packet_sent_duplicate (packet : QUICPacket.t) (now : Z)
    (s : State) (stored : PacketInfo) :
  map_wf (_sent_packets s) = true ->
  map_find (QUICPacket.packet_number packet) (_sent_packets s) = Some stored ->
  _sent_packets (on_packet_sent packet now s) = _sent_packets s
  /\ _handshake_outstanding (on_packet_sent packet now s)
     = (if is_handshake_type (QUICPacket.type packet)
        then wrap32 (_handshake_outstanding s + 1)
        else _handshake_outstanding s)
  /\ _retransmittable_outstanding (on_packet_sent packet now s)
     = (if QUICPacket.is_retransmittable packet
        then wrap32 (_retransmittable_outstanding s + 1)
        else _retransmittable_outstanding s).
Proof.
  intros Hwf Hfind.
  destruct (on_packet_sent_fields packet now s) as (Em & Eh & Er).
  rewrite Em, Eh, Er.
  now rewrite (map_insert_present _ _ stored _ Hwf Hfind).
Qed.

Lemma on_packet_sent_duplicate_witness :
  let s := run three_in_flight (QUICLossDetector false) in
  let s' := on_packet_sent (sample_packet 2 OTHER true) (ms 7) s in
  _sent_packets s' = _sent_packets s
  /\ _retransmittable_outstanding s = 3
  /\ _retransmittable_outstanding s' = 4.
Proof.
  cbv zeta.
  destruct (on_packet_sent_duplicate (sample_packet 2 OTHER true) (ms 7)
              (run three_in_flight (QUICLossDetector false))
              (mkPacketInfo 2 0 true false 100 (sample_packet 2 OTHER true)))
    as (Hm & _ & Hr).
  - reflexivity.
  - reflexivity.
  - split; [exact Hm|]. split; [reflexivity|]. rewrite Hr. reflexivity.
Defined.

(** X14: a packet that is not retransmittable never touches the alarm:
    deadline and timer handle are as before, even for a handshake packet
    that is counted in [_handshake_outstanding]. *)
Theorem on_packet_sent_not_retransmittable (packet : QUICPacket.t) (now : Z)
    (s : State) :
  QUICPacket.is_retransmittable packet = false ->
  _loss_detection_alarm_at (on_packet_sent packet now s)
  = _loss_detection_alarm_at s
  /\ _loss_detection_alarm (on_packet_sent packet now s)
     = _loss_detection_alarm s.
Proof.
  intros H. unfold on_packet_sent, _on_packet_sent. cbv zeta. rewrite H.
  destruct (QUICPacket.type packet), (_connection_id s =? 0);
    split; reflexivity.
Qed.

Lemma on_packet_sent_not_retransmittable_witness :
  let s := on_packet_sent (sample_packet 1 HANDSHAKE false) 0
             (QUICLossDetector false) in
  _handshake_outstanding s = 1
  /\ _loss_detection_alarm_at s = 0
  /\ _loss_detection_alarm s = false.
Proof.
  cbv zeta. split; [reflexivity|].
  apply (on_packet_sent_not_retransmittable (sample_packet 1 HANDSHAKE false)
           0 (QUICLossDetector false)).
  reflexivity.
Defined.

(** ** The alarm deadline over time *)

Lemma set_loss_detection_alarm_deadline (now : Z) (s : State) :
  _loss_detection_alarm_at s <> 0 ->
  (_loss_detection_alarm (_set_loss_detection_alarm now s) = false
   /\ _loss_detection_alarm_at (_set_loss_detection_alarm now s) = 0)
  \/ (_loss_detection_alarm (_set_loss_detection_alarm now s) = true
      /\ _loss_detection_alarm_at (_set_loss_detection_alarm now s)
         = Z.min (_loss_detection_alarm_at s) (now + alarm_duration now s)).
Proof.
  intros Hat. apply Z.eqb_neq in Hat.
  destruct ((_retransmittable_outstanding s =? 0) && _loss_detection_alarm s)
    eqn:Hc.
  - left. unfold _set_loss_detection_alarm. rewrite Hc. split; reflexivity.
  - right. rewrite (set_loss_detection_alarm_armed now s Hc).
    cbn [_loss_detection_alarm _loss_detection_alarm_at
           with_loss_detection_alarm with_loss_detection_alarm_at].
    now rewrite Hat.
Qed.

(** X15: re-arming never postpones an armed deadline: a call of
    [_set_loss_detection_alarm] with a nonzero deadline either cancels the
    alarm or leaves a deadline that is not later than the old one. *)
Theorem set_loss_detection_alarm_never_later (now : Z) (s : State) :
  _loss_detection_alarm_at s <> 0 ->
  (_loss_detection_alarm (_set_loss_detection_alarm now s) = false
   /\ _loss_detection_alarm_at (_set_loss_detection_alarm now s) = 0)
  \/ (_loss_detection_alarm (_set_loss_detection_alarm now s) = true
      /\ _loss_detection_alarm_at (_set_loss_detection_alarm now s)
         <= _loss_detection_alarm_at s).
Proof.
  intros Hat.
  destruct (set_loss_detection_alarm_deadline now s Hat) as [H | [Ha Hd]];
    [now left | right].
  split; [assumption | rewrite Hd; apply Z.le_min_l].
Qed.

Lemma set_loss_detection_alarm_never_later_witness :
  let s :=
    run [OpPacketSent (sample_packet 1 OTHER true) 0] (QUICLossDetector false) in
  _loss_detection_alarm_at s = ms 25
  /\ _loss_detection_alarm_at (_set_loss_detection_alarm (ms 20) s) <= ms 25.
Proof.
  cbv zeta. split; [reflexivity|].
  destruct (set_loss_detection_alarm_never_later (ms 20)
              (run [OpPacketSent (sample_packet 1 OTHER true) 0]
                 (QUICLossDetector false))) as [[_ H] | [_ H]].
  - vm_compute. discriminate.
  - rewrite H. vm_compute. discriminate.
  - exact H.
Defined.

Lemma on_loss_detection_alarm_shape (now queued : Z) (s : State) :
  exists s',
    fst (_on_loss_detection_alarm now queued s)
    = _set_loss_detection_alarm now s'
    /\ _loss_detection_alarm_at s' = _loss_detection_alarm_at s
    /\ _tlp_count s'
       = (if (_handshake_outstanding s =? 0) && (_loss_time s =? 0)
             && (_tlp_count s <? _MAX_TLPS)
          then wrap32 (_tlp_count s + 1)
          else _tlp_count s).
Proof.
  unfold _on_loss_detection_alarm.
  destruct (_handshake_outstanding s =? 0); cbn [negb andb].
  - destruct (_loss_time s =? 0); cbn [negb andb].
    + destruct (_tlp_count s <? _MAX_TLPS); cbn [fst].
      * eexists. split; [reflexivity|]. split; reflexivity.
      * eexists. split; [reflexivity|].
        destruct (_rto_count s =? 0); split; reflexivity.
    + pose proof (detect_lost_packets_fst (_largest_acked_packet s) now s) as E.
      destruct (_detect_lost_packets (_largest_acked_packet s) now s)
        as [s' calls].
      cbn [fst] in *. exists s'. split; [reflexivity|]. subst s'.
      match goal with
      | |- context [fold_left forget_packet ?lost ?s0] =>
          pose proof (forget_all_frame lost s0) as HC;
          remember (fold_left forget_packet lost s0) as sC eqn:EC; clear EC
      end.
      split.
      * exact (f_equal _loss_detection_alarm_at HC).
      * exact (f_equal _tlp_count HC).
  - unfold _retransmit_handshake_packets.
    destruct (handshake_prefix (_sent_packets s) [] []) as [keys calls].
    cbn [fst].
    pose proof (drop_handshake_packets_frame keys s) as HC.
    remember (fold_left drop_handshake_packet keys s) as sC eqn:EC. clear EC.
    eexists. split; [reflexivity|]. split.
    + exact (f_equal _loss_detection_alarm_at HC).
    + exact (f_equal _tlp_count HC).
Qed.

(** X16: the alarm handler never moves a deadline that has passed into
    the future.  When a timer event finds the nonzero deadline reached,
    then after the handler has run either the alarm is cancelled or the
    deadline is still not later than before, so the next timer event runs
    the handler again. *)
Theorem event_handler_stays_due (now queued : Z) (s : State) :
  _loss_detection_alarm_at s <> 0 ->
  _loss_detection_alarm_at s <= now ->
  let s' := fst (event_handler EVENT_INTERVAL now queued s) in
  (_loss_detection_alarm s' = false /\ _loss_detection_alarm_at s' = 0)
  \/ (_loss_detection_alarm s' = true /\ _loss_detection_alarm_at s' <= now).
Proof.
  intros Hat Hdue. cbv zeta. cbn [event_handler].
  apply Z.leb_le in Hdue. rewrite Hdue. apply Z.leb_le in Hdue.
  destruct (on_loss_detection_alarm_shape now queued s) as (sM & -> & Eat & _).
  assert (HatM : _loss_detection_alarm_at sM <> 0) by now rewrite Eat.
  destruct (set_loss_detection_alarm_deadline now sM HatM) as [H | [Ha Hd]];
    [now left | right].
  split; [assumption|]. rewrite Hd, Eat.
  pose proof (Z.le_min_l (_loss_detection_alarm_at s)
                (now + alarm_duration now sM)). lia.
Qed.

Lemma event_handler_stays_due_witness :
  let s :=
    run [OpPacketSent (sample_packet 1 OTHER true) 0] (QUICLossDetector false) in
  let s' := fst (event_handler EVENT_INTERVAL (ms 30) 0 s) in
  _tlp_count s' = 1
  /\ _loss_detection_alarm_at s' <= ms 30.
Proof.
  cbv zeta. split; [reflexivity|].
  destruct (event_handler_stays_due (ms 30) 0
              (run [OpPacketSent (sample_packet 1 OTHER true) 0]
                 (QUICLossDetector false))) as [[_ H] | [_ H]].
  - vm_compute. discriminate.
  - vm_compute. discriminate.
  - rewrite H. vm_compute. discriminate.
  - exact H.
Defined.





(** ** Bounds and provenance along runs *)

Lemma on_packet_sent_tlp_count (packet : QUICPacket.t) (now : Z) (s : State) :
  _tlp_count (on_packet_sent packet now s) = _tlp_count s.
Proof.
  unfold on_packet_sent, _on_packet_sent. cbv zeta.
  destruct (QUICPacket.is_retransmittable packet).
  - match goal with
    | |- _tlp_count (_set_loss_detection_alarm now ?x) = _ =>
        transitivity (_tlp_count x);
        [exact (f_equal _tlp_count (set_loss_detection_alarm_frame now x))|]
    end.
    destruct (QUICPacket.type packet), (_connection_id s =? 0); reflexivity.
  - destruct (QUICPacket.type packet), (_connection_id s =? 0); reflexivity.
Qed.

Lemma step_tlp_count (s : State) (op : Operation) :
  0 <= _tlp_count s <= _MAX_TLPS ->
  0 <= _tlp_count (step s op) <= _MAX_TLPS.
Proof.
  intros H. destruct op as [packet now|ack_frame now|event now queued];
    cbn [step].
  - now rewrite on_packet_sent_tlp_count.
  - pose proof (on_ack_received_core ack_frame now s) as E.
    remember (fst (_on_ack_received ack_frame now s)) as s1. clear Heqs1.
    remember (ack_rtt_sample ack_frame now
                (with_largest_acked_packet
                   (QUICAckFrame.largest_acknowledged ack_frame) s)) as sA.
    clear HeqsA.
    apply (f_equal _tlp_count) in E.
    change (_tlp_count s1 = 0) in E. rewrite E. unfold _MAX_TLPS. lia.
  - destruct event; cbn [event_handler]; try assumption.
    destruct (_loss_detection_alarm_at s <=? now); [|assumption].
    destruct (on_loss_detection_alarm_shape now queued s)
      as (sM & -> & _ & Et).
    replace (_tlp_count (_set_loss_detection_alarm now sM))
      with (_tlp_count sM)
      by (symmetry;
          exact (f_equal _tlp_count (set_loss_detection_alarm_frame now sM))).
    rewrite Et.
    destruct ((_handshake_outstanding s =? 0) && (_loss_time s =? 0));
      cbn [andb]; [|assumption].
    destruct (Z.ltb_spec (_tlp_count s) _MAX_TLPS); [|assumption].
    unfold wrap32, _MAX_TLPS in *. rewrite Z.mod_small; lia.
Qed.

(** X19: in every state reachable from a fresh detector the tail-loss-probe
    count lies between 0 and [_MAX_TLPS]. *)
Theorem tlp_count_bounded (time_loss_detection : bool)
    (ops : list Operation) :
  0 <= _tlp_count (run ops (QUICLossDetector time_loss_detection))
    <= _MAX_TLPS.
Proof.
  assert (H : forall s, 0 <= _tlp_count s <= _MAX_TLPS ->
                        0 <= _tlp_count (run ops s) <= _MAX_TLPS).
  { unfold run. induction ops as [|op ops IH]; intros s Hs; [assumption|].
    rewrite fold_left_step. apply IH. now apply step_tlp_count. }
  apply H. destruct time_loss_detection; cbn; unfold _MAX_TLPS; lia.
Qed.

Lemma handshake_prefix_calls (m : SentPackets) :
  forall (acc : PacketSet) (calls : list Effect) (p : QUICPacket.t),
    In (retransmit_packet p) (snd (handshake_prefix m acc calls)) ->
    In (retransmit_packet p) calls
    \/ exists k v, In (k, v) m /\ packet v = p.
Proof.
  induction m as [|[k v] m IH]; intros acc calls p Hin; [now left|].
  cbn [handshake_prefix] in Hin.
  destruct (negb (handshake v)); [now left|].
  apply IH in Hin. destruct Hin as [Hin | (k' & v' & Hin & E)].
  - apply in_app_or in Hin. destruct Hin as [Hin | [E | []]]; [now left|].
    injection E as <-. right. exists k, v. simpl. auto.
  - right. exists k', v'. simpl. auto.
Qed.

Lemma rev_head_In (m : SentPackets) (e : Z * PacketInfo)
    (rest : SentPackets) :
  rev m = e :: rest -> forall e', In e' (e :: rest) -> In e' m.
Proof. intros E e' Hin. apply in_rev. now rewrite E. Qed.

(** X20: an alarm firing only ever retransmits packets that are in the
    registry when the alarm fires. *)
Theorem on_loss_detection_alarm_retransmits_registered (now queued : Z)
    (s : State) (p : QUICPacket.t) :
  In (retransmit_packet p) (snd (_on_loss_detection_alarm now queued s)) ->
  exists k v, In (k, v) (_sent_packets s) /\ packet v = p.
Proof.
  unfold _on_loss_detection_alarm.
  destruct (negb (_handshake_outstanding s =? 0)).
  - unfold _retransmit_handshake_packets.
    pose proof (handshake_prefix_calls (_sent_packets s) [] [] p) as H.
    destruct (handshake_prefix (_sent_packets s) [] []) as [keys calls].
    cbn [snd] in *. intros Hin. destruct (H Hin) as [[] | Hex]. exact Hex.
  - destruct (negb (_loss_time s =? 0)).
    + unfold _detect_lost_packets.
      destruct (detect_lost_loop _ _ _ _ _ _ _) as [lt [|n lost]];
        cbn [snd]; [intros [] | intros [E | []]; discriminate].
    + destruct (_tlp_count s <? _MAX_TLPS); cbn [snd].
      * unfold _send_one_packet.
        destruct (rev (_sent_packets s)) as [|[k v] rest] eqn:Erev;
          destruct (queued <? 1);
          intros [E | Hin]; try discriminate; try contradiction.
        destruct Hin as [E | []]. injection E as <-.
        exists k, v. split; [|reflexivity].
        apply (rev_head_In _ _ _ Erev). simpl. auto.
      * assert (Hs : forall s0, _sent_packets s0 = _sent_packets s ->
                     In (retransmit_packet p) (_send_two_packets s0) ->
                     exists k v, In (k, v) (_sent_packets s) /\ packet v = p).
        { intros s0 E0. unfold _send_two_packets. rewrite E0.
          destruct (rev (_sent_packets s)) as [|[k v] rest] eqn:Erev.
          - intros [E | []]. discriminate.
          - intros [E | Hin].
            + injection E as <-. exists k, v. split; [|reflexivity].
              apply (rev_head_In _ _ _ Erev). simpl. auto.
            + destruct rest as [|[k' v'] rest]; [contradiction|].
              destruct Hin as [E | []]. injection E as <-.
              exists k', v'. split; [|reflexivity].
              apply (rev_head_In _ _ _ Erev). simpl. auto. }
        apply Hs. destruct (_rto_count s =? 0); reflexivity.
Qed.

Lemma on_loss_detection_alarm_retransmits_registered_witness :
  let s :=
    run (three_in_flight
         ++ [OpEvent EVENT_INTERVAL (ms 30) 0;
             OpEvent EVENT_INTERVAL (ms 55) 0])
      (QUICLossDetector false) in
  _tlp_count s = 2
  /\ snd (_on_loss_detection_alarm (ms 80) 0 s)
     = [retransmit_packet (sample_packet 3 OTHER true);
        retransmit_packet (sample_packet 2 OTHER true)]
  /\ exists k v,
       In (k, v) (_sent_packets s) /\ packet v = sample_packet 2 OTHER true.
Proof.
  cbv zeta. split; [reflexivity|]. split; [reflexivity|].
  apply (on_loss_detection_alarm_retransmits_registered (ms 80) 0
           (run (three_in_flight
                 ++ [OpEvent EVENT_INTERVAL (ms 30) 0;
                     OpEvent EVENT_INTERVAL (ms 55) 0])
              (QUICLossDetector false))).
  vm_compute. tauto.
Defined.

(** ** The packet numbers an ACK frame covers *)

Lemma wrap64_pred (y : Z) : wrap64 (wrap64 y - 1) = wrap64 (y - 1).
Proof. unfold wrap64. apply Zminus_mod_idemp_l. Qed.

Lemma insert_run_spec (count : nat) :
  forall (y : Z) (packets : PacketSet),
    fst (insert_run count (wrap64 y) packets) = wrap64 (y - Z.of_nat count)
    /\ forall k,
         In k (snd (insert_run count (wrap64 y) packets))
         <-> In k packets
             \/ exists i, 0 <= i < Z.of_nat count /\ k = wrap64 (y - i).
Proof.
  induction count as [|count IH]; intros y packets.
  - cbn [insert_run fst snd Z.of_nat]. rewrite Z.sub_0_r. split; [reflexivity|].
    intros k. split; [tauto | intros [H | (i & Hi & _)]; [assumption | lia]].
  - cbn [insert_run]. rewrite wrap64_pred.
    destruct (IH (y - 1) (set_insert (wrap64 y) packets)) as [Ex Hin].
    split; [rewrite Ex; f_equal; lia|].
    intros k. rewrite Hin, set_insert_In. split.
    + intros [[-> | H] | (i & Hi & ->)].
      * right. exists 0. rewrite Z.sub_0_r. split; [lia | reflexivity].
      * now left.
      * right. exists (i + 1). split; [lia | f_equal; lia].
    + intros [H | (i & Hi & ->)]; [tauto|].
      destruct (Z.eq_dec i 0) as [-> | Hne].
      * left. left. now rewrite Z.sub_0_r.
      * right. exists (i - 1). split; [lia | f_equal; lia].
Qed.

Lemma skip_run_spec (count : nat) (y : Z) :
  Nat.iter count (fun x => wrap64 (x - 1)) (wrap64 y)
  = wrap64 (y - Z.of_nat count).
Proof.
  induction count as [|count IH].
  - simpl. now rewrite Z.sub_0_r.
  - rewrite Nat.iter_succ, IH, wrap64_pred. f_equal. lia.
Qed.

Lemma ack_blocks_loop_spec (blocks : list QUICAckFrame.AckBlock) :
  Forall (fun block => 0 <= QUICAckFrame.gap block
                       /\ 0 <= QUICAckFrame.length block) blocks ->
  forall (y : Z) (packets : PacketSet) (k : Z),
    In k (ack_blocks_loop blocks (wrap64 y) packets)
    <-> In k packets \/ exists v, blocks_cover blocks y v /\ k = wrap64 v.
Proof.
  induction 1 as [|block blocks [Hg Hl] Hall IH]; intros y packets k.
  - cbn [ack_blocks_loop blocks_cover]. split; [tauto|].
    intros [H | (v & [] & _)]. assumption.
  - cbn [ack_blocks_loop blocks_cover]. rewrite skip_run_spec.
    replace (Z.of_nat (S (Z.to_nat (QUICAckFrame.gap block))))
      with (QUICAckFrame.gap block + 1) by lia.
    destruct (insert_run_spec (S (Z.to_nat (QUICAckFrame.length block)))
                (y - (QUICAckFrame.gap block + 1)) packets) as [Ex Hin].
    destruct (insert_run (S (Z.to_nat (QUICAckFrame.length block)))
                (wrap64 (y - (QUICAckFrame.gap block + 1))) packets)
      as [x' packets'].
    cbn [fst snd] in Ex, Hin. subst x'.
    replace (Z.of_nat (S (Z.to_nat (QUICAckFrame.length block))))
      with (QUICAckFrame.length block + 1) in * by lia.
    rewrite IH, Hin. cbv zeta.
    replace (y - (QUICAckFrame.gap block + 1)
             - (QUICAckFrame.length block + 1))
      with (y - (QUICAckFrame.gap block + 1)
            - QUICAckFrame.length block - 1) by lia.
    split.
    + intros [[H | (i & Hi & ->)] | (v & Hv & ->)].
      * now left.
      * right. eexists. split; [left | reflexivity]. lia.
      * right. exists v. tauto.
    + intros [H | (v & [Hv | Hv] & ->)].
      * tauto.
      * left. right. exists (y - (QUICAckFrame.gap block + 1) - v).
        split; [lia | f_equal; lia].
      * right. exists v. tauto.
Qed.

Lemma blocks_cover_bounds (blocks : list QUICAckFrame.AckBlock) :
  Forall (fun block => 0 <= QUICAckFrame.gap block
                       /\ 0 <= QUICAckFrame.length block) blocks ->
  forall y v, blocks_cover blocks y v -> y - blocks_span blocks < v < y.
Proof.
  induction 1 as [|block blocks [Hg Hl] Hall IH]; intros y v Hv.
  - destruct Hv.
  - cbn [blocks_cover blocks_span] in *. destruct Hv as [Hv | Hv].
    + assert (Hs : 0 <= blocks_span blocks).
      { clear -Hall. induction Hall as [|b bs [? ?] _ IHs];
          cbn [blocks_span]; lia. }
      lia.
    + apply IH in Hv. lia.
Qed.

Lemma determine_newly_acked_spec (ack_frame : QUICAckFrame.t) (k : Z) :
  0 <= QUICAckFrame.largest_acknowledged ack_frame < 2 ^ 64 ->
  0 <= QUICAckFrame.first_ack_block_length ack_frame ->
  Forall (fun block => 0 <= QUICAckFrame.gap block
                       /\ 0 <= QUICAckFrame.length block)
    (QUICAckFrame.ack_block_section ack_frame) ->
  In k (_determine_newly_acked_packets ack_frame)
  <-> exists v, ack_covers ack_frame v /\ k = wrap64 v.
Proof.
  intros Hx Hf Hall. unfold _determine_newly_acked_packets, ack_covers.
  cbv zeta.
  assert (Ewrap : QUICAckFrame.largest_acknowledged ack_frame
                  = wrap64 (QUICAckFrame.largest_acknowledged ack_frame))
    by (unfold wrap64; now rewrite Z.mod_small).
  rewrite Ewrap at 1.
  destruct (insert_run_spec
              (S (Z.to_nat (QUICAckFrame.first_ack_block_length ack_frame)))
              (QUICAckFrame.largest_acknowledged ack_frame) []) as [Ex Hin].
  destruct (insert_run _ _ []) as [x' packets'].
  cbn [fst snd] in Ex, Hin. subst x'.
  replace (Z.of_nat
             (S (Z.to_nat (QUICAckFrame.first_ack_block_length ack_frame))))
    with (QUICAckFrame.first_ack_block_length ack_frame + 1) in * by lia.
  rewrite (ack_blocks_loop_spec _ Hall), Hin.
  replace (QUICAckFrame.largest_acknowledged ack_frame
           - (QUICAckFrame.first_ack_block_length ack_frame + 1))
    with (QUICAckFrame.largest_acknowledged ack_frame
          - QUICAckFrame.first_ack_block_length ack_frame - 1) by lia.
  split.
  - intros [[[] | (i & Hi & ->)] | (v & Hv & ->)].
    + eexists. split; [left | reflexivity]. lia.
    + exists v. tauto.
  - intros (v & [Hv | Hv] & ->).
    + left. right.
      exists (QUICAckFrame.largest_acknowledged ack_frame - v).
      split; [lia | f_equal; lia].
    + right. exists v. tauto.
Qed.

(** X21: for an ACK frame whose blocks stay at or above packet number 0,
    the newly acknowledged set holds exactly the numbers from the largest
    acknowledged one down over [first_ack_block_length + 1] numbers and
    then, for each further block, after a gap of [gap + 1] numbers, the next
    [length + 1] numbers. *)
Theorem determine_newly_acked_packets_covers (ack_frame : QUICAckFrame.t)
    (k : Z) :
  ack_in_range ack_frame ->
  In k (_determine_newly_acked_packets ack_frame) <-> ack_covers ack_frame k.
Proof.
  intros (Hx & Hf & Hall & Hspan).
  rewrite (determine_newly_acked_spec ack_frame k Hx Hf Hall).
  assert (Hsmall : forall v, ack_covers ack_frame v -> wrap64 v = v).
  { intros v Hv. unfold wrap64. apply Z.mod_small.
    unfold ack_covers in Hv. cbv zeta in Hv. destruct Hv as [Hv | Hv].
    - assert (0 <= blocks_span (QUICAckFrame.ack_block_section ack_frame)).
      { clear -Hall. induction Hall as [|b bs [? ?] _ IHs];
          cbn [blocks_span]; lia. }
      lia.
    - apply (blocks_cover_bounds _ Hall) in Hv. lia. }
  split.
  - intros (v & Hv & ->). now rewrite (Hsmall v Hv).
  - intros Hk. exists k. split; [assumption|]. symmetry. now apply Hsmall.
Qed.

Lemma determine_newly_acked_packets_covers_witness :
  let ack_frame :=
    QUICAckFrame.mk 20 0 2
      [QUICAckFrame.mkBlock 1 1; QUICAckFrame.mkBlock 0 0] in
  _determine_newly_acked_packets ack_frame = [12; 14; 15; 18; 19; 20]
  /\ (In 14 (_determine_newly_acked_packets ack_frame)
      <-> ack_covers ack_frame 14).
Proof.
  cbv zeta. split; [reflexivity|].
  apply (determine_newly_acked_packets_covers
           (QUICAckFrame.mk 20 0 2
              [QUICAckFrame.mkBlock 1 1; QUICAckFrame.mkBlock 0 0]) 14).
  unfold ack_in_range. cbn.
  repeat split; try lia; try discriminate.
  repeat constructor; cbn; lia.
Defined.

(** X22: the numbers of an ACK frame are counted down modulo 2^64: for any
    frame with unsigned fields the newly acknowledged set holds exactly the
    residues of the numbers its blocks describe, so a frame whose blocks
    reach below packet number 0 covers numbers at the top of the 64-bit
    range. *)
Theorem determine_newly_acked_packets_wraps (ack_frame : QUICAckFrame.t)
    (k : Z) :
  0 <= QUICAckFrame.largest_acknowledged ack_frame < 2 ^ 64 ->
  0 <= QUICAckFrame.first_ack_block_length ack_frame ->
  Forall (fun block => 0 <= QUICAckFrame.gap block
                       /\ 0 <= QUICAckFrame.length block)
    (QUICAckFrame.ack_block_section ack_frame) ->
  In k (_determine_newly_acked_packets ack_frame)
  <-> exists v, ack_covers ack_frame v /\ k = wrap64 v.
Proof. apply determine_newly_acked_spec. Qed.

Lemma determine_newly_acked_packets_wraps_witness :
  let ack_frame := QUICAckFrame.mk 1 0 2 [] in
  _determine_newly_acked_packets ack_frame = [0; 1; 18446744073709551615]
  /\ (In 18446744073709551615 (_determine_newly_acked_packets ack_frame)
      <-> exists v, ack_covers ack_frame v /\ 18446744073709551615 = wrap64 v).
Proof.
  cbv zeta. split; [reflexivity|].
  apply (determine_newly_acked_packets_wraps (QUICAckFrame.mk 1 0 2 [])
           18446744073709551615).
  - cbn. lia.
  - cbn. lia.
  - constructor.
Defined.

(** ** The loss time and the stored packet numbers *)

Lemma detect_lost_loop_loss_time (largest now delay threshold : Z)
    (m : SentPackets) :
  forall (lt : Z) (acc : PacketSet),
    fst (detect_lost_loop largest now delay threshold m lt acc) = lt
    \/ exists k v,
         In (k, v) m /\ k < largest
         /\ lost_criterion largest now delay threshold v = false
         /\ fst (detect_lost_loop largest now delay threshold m lt acc)
            = time v + delay.
Proof.
  induction m as [|[k0 v0] m IH]; intros lt acc; [now left|].
  cbn [detect_lost_loop]. unfold lost_criterion in *.
  destruct (Z.geb_spec k0 largest) as [Hge | Hlt]; [now left|].
  assert (Hlater : forall l a,
             (exists k v,
                 In (k, v) m /\ k < largest
                 /\ (now - time v >? delay)
                    || (wrap64 (largest - packet_number v) >? threshold)
                    = false
                 /\ fst (detect_lost_loop largest now delay threshold m l a)
                    = time v + delay) ->
             exists k v,
               In (k, v) ((k0, v0) :: m) /\ k < largest
               /\ (now - time v >? delay)
                  || (wrap64 (largest - packet_number v) >? threshold)
                  = false
               /\ fst (detect_lost_loop largest now delay threshold m l a)
                  = time v + delay).
  { intros l a (k & v & Hin & H). exists k, v. simpl. tauto. }
  destruct (now - time v0 >? delay) eqn:Htime;
    [|destruct (wrap64 (largest - packet_number v0) >? threshold) eqn:Hdelta;
      [|destruct ((lt =? 0) && uint32_ne_INFINITY delay)]];
    match goal with
    | |- context [detect_lost_loop _ _ _ _ m ?l ?a] =>
        destruct (IH l a) as [E | Hex]
    end;
    try (now left); try (right; now apply Hlater).
  right. exists k0, v0. rewrite E, Htime, Hdelta. simpl.
  repeat split; auto; lia.
Qed.

(** X23: after loss detection [_loss_time] is either 0 or the send time of
    a registry entry below the largest acknowledged number that was not
    declared lost, plus [delay_until_lost]. *)
Theorem detect_lost_packets_loss_time (largest now : Z) (s : State) :
  _loss_time (fst (_detect_lost_packets largest now s)) = 0
  \/ exists k v,
       In (k, v) (_sent_packets s) /\ k < largest
       /\ lost_criterion largest now (delay_until_lost largest s)
            (_reordering_threshold s) v = false
       /\ _loss_time (fst (_detect_lost_packets largest now s))
          = time v + delay_until_lost largest s.
Proof.
  rewrite detect_lost_packets_fst.
  match goal with
  | |- context [fold_left forget_packet ?lost (with_loss_time ?lt s)] =>
      pose proof (forget_all_frame lost (with_loss_time lt s)) as HC;
      remember (fold_left forget_packet lost (with_loss_time lt s)) as sC
        eqn:EC; clear EC;
      assert (E : _loss_time sC = lt) by exact (f_equal _loss_time HC)
  end.
  rewrite E.
  apply (detect_lost_loop_loss_time largest now (delay_until_lost largest s)
           (_reordering_threshold s) (_sent_packets s) 0 []).
Qed.

Lemma erase_all_entries (keys : PacketSet) (m : SentPackets)
    (e : Z * PacketInfo) :
  In e (erase_all keys m) -> In e m.
Proof.
  induction m as [|[k v] m IH].
  - now rewrite erase_all_nil.
  - rewrite erase_all_cons. destruct (existsb (Z.eqb k) keys); simpl; tauto.
Qed.

Lemma map_insert_entries (n : Z) (v : PacketInfo) (m : SentPackets)
    (e : Z * PacketInfo) :
  In e (map_insert n v m) -> e = (n, v) \/ In e m.
Proof.
  induction m as [|[k' v'] m IH]; simpl.
  - intros [<- | []]. now left.
  - destruct (n <? k'); simpl; [intros [<- | H]; tauto|].
    destruct (n =? k'); simpl; tauto.
Qed.

Lemma step_entries (s : State) (op : Operation) (e : Z * PacketInfo) :
  In e (_sent_packets (step s op)) ->
  In e (_sent_packets s)
  \/ exists packet now,
       op = OpPacketSent packet now
       /\ e = (QUICPacket.packet_number packet,
               mkPacketInfo (QUICPacket.packet_number packet) now
                 (QUICPacket.is_retransmittable packet)
                 (is_handshake_type (QUICPacket.type packet))
                 (QUICPacket.size packet) packet).
Proof.
  destruct op as [packet now|ack_frame now|event now queued]; cbn [step].
  - destruct (on_packet_sent_fields packet now s) as [-> _].
    intros Hin. apply map_insert_entries in Hin.
    destruct Hin as [-> | Hin]; [right | now left].
    now exists packet, now.
  - destruct (on_ack_received_registry ack_frame now s) as [lost ->].
    intros Hin. left. now apply erase_all_entries, erase_all_entries in Hin.
  - destruct (event_handler_registry event now queued s) as [keys ->].
    intros Hin. left. now apply erase_all_entries in Hin.
Qed.

(** X24: in every state reachable from a fresh detector each registry
    entry is what [on_packet_sent] stored: its [packet_number] field is its
    key, its payload is a packet with that number, and its flags are the
    packet's. *)
Theorem registry_entries_as_sent (time_loss_detection : bool)
    (ops : list Operation) (k : Z) (v : PacketInfo) :
  In (k, v) (_sent_packets (run ops (QUICLossDetector time_loss_detection))) ->
  packet_number v = k
  /\ QUICPacket.packet_number (packet v) = k
  /\ retransmittable v = QUICPacket.is_retransmittable (packet v)
  /\ handshake v = is_handshake_type (QUICPacket.type (packet v))
  /\ bytes v = QUICPacket.size (packet v).
Proof.
  assert (H : forall s,
             (forall e, In e (_sent_packets s) ->
                        packet_number (snd e) = fst e
                        /\ QUICPacket.packet_number (packet (snd e)) = fst e
                        /\ retransmittable (snd e)
                           = QUICPacket.is_retransmittable (packet (snd e))
                        /\ handshake (snd e)
                           = is_handshake_type
                               (QUICPacket.type (packet (snd e)))
                        /\ bytes (snd e) = QUICPacket.size (packet (snd e))) ->
             forall e, In e (_sent_packets (run ops s)) ->
                       packet_number (snd e) = fst e
                       /\ QUICPacket.packet_number (packet (snd e)) = fst e
                       /\ retransmittable (snd e)
                          = QUICPacket.is_retransmittable (packet (snd e))
                       /\ handshake (snd e)
                          = is_handshake_type
                              (QUICPacket.type (packet (snd e)))
                       /\ bytes (snd e) = QUICPacket.size (packet (snd e))).
  { unfold run. induction ops as [|op ops IH]; intros s Hs; [assumption|].
    rewrite fold_left_step. apply IH. intros e Hin.
    apply step_entries in Hin.
    destruct Hin as [Hin | (packet & now & _ & ->)]; [now apply Hs|].
    cbn. tauto. }
  intros Hin.
  apply (H (QUICLossDetector time_loss_detection)
           ltac:(destruct time_loss_detection; intros e [])
           (k, v) Hin).
Qed.

Lemma registry_entries_as_sent_witness :
  let v := mkPacketInfo 3 0 true false 100 (sample_packet 3 OTHER true) in
  packet_number v = 3
  /\ QUICPacket.packet_number (packet v) = 3
  /\ retransmittable v = QUICPacket.is_retransmittable (packet v)
  /\ handshake v = is_handshake_type (QUICPacket.type (packet v))
  /\ bytes v = QUICPacket.size (packet v).
Proof.
  cbv zeta.
  apply (registry_entries_as_sent false three_in_flight 3
           (mkPacketInfo 3 0 true false 100 (sample_packet 3 OTHER true))).
  vm_compute. tauto.
Defined.
